(** * vulpes-spotify-mcp: token lifecycle, facade operations and tool handlers

    A shallow embedding of [spotify-client.ts] (the access-token lifecycle
    manager and the remote-service facade) and of the two convenience tools
    of [index.ts], together with the properties the specification states
    about them.

    Conventions of the embedding.
    - JavaScript numbers that hold millisecond clock readings, token
      lifetimes and result limits are integers in every run of the program;
      they are modelled as [Z] (no rounding is modelled).
    - JavaScript strings are modelled as [string]; [startsWith] and
      [includes] compare code units, here characters.
    - An [async] function is a program of the monad [Prog]: a tree whose
      nodes are the effects of the code (reading the clock, reading and
      writing the module-level token state, one request to the remote
      service) and whose leaves are a returned value or a thrown error.
      [run] executes such a tree against a [World] that answers the clock
      readings and the requests, and records every request issued.
    - Logging ([console.error]) has no effect on what is modelled and is
      left out, as is the marker property [Symbol.for("any")] of the
      returned objects.  [JSON.stringify], [JSON.parse] and [toLowerCase]
      belong to the language, not to the program: the code is embedded over
      an arbitrary implementation of them ([JSON], [toLowerCase]), and the
      properties say what they need of it.
    - Of [spotify-client.ts], [ensureAccessToken], [searchTracks],
      [playTrack], [getUserPlaylists], [getPlaylistTracks] and
      [playPlaylist] are embedded first; of [index.ts], the handlers of
      [spotify-search-and-play] and [spotify-find-playlist].  The listener
      of [simple-auth.js] and the three remaining operations of
      [spotify-client.ts] ([getDevices], [getCurrentlyPlaying],
      [debugSpotifyConfig]) follow, the latter over a request type that
      extends the one of the facade. *)

From Stdlib Require Import ZArith List String Ascii Bool Lia DecimalString.
Import ListNotations.
Open Scope string_scope.
Open Scope Z_scope.

Set Implicit Arguments.

(* ================================================================== *)
(** ** Strings *)

Module Js.

(** [s.startsWith(p)] *)
Definition startsWith (s p : string) : bool := String.prefix p s.

(** [s.includes(sub)]: [sub] occurs at some position of [s]. *)
Fixpoint includes (s sub : string) : bool :=
  startsWith s sub ||
  match s with
  | EmptyString => false
  | String _ s' => includes s' sub
  end.

(** [xs.join(sep)] on an array of strings. *)
Fixpoint join (sep : string) (xs : list string) : string :=
  match xs with
  | [] => ""
  | [x] => x
  | x :: xs' => x ++ sep ++ join sep xs'
  end.

(** The double-quote character, which the templates of the tool
    handlers put around names. *)
Definition dq : string := String "034"%char EmptyString.

(** Values thrown by the code and by the client library are [Error]
    objects: a [name] and a [message]. *)
Record Error : Type := mkError { name : string; message : string }.

(** [new Error(msg)] *)
Definition newError (msg : string) : Error := mkError "Error" msg.

(** [String(error)] and [`${error}`]: [Error.prototype.toString]. *)
Definition String_ (e : Error) : string :=
  if String.eqb (name e) "" then message e
  else if String.eqb (message e) "" then name e
  else name e ++ ": " ++ message e.

End Js.

(* ================================================================== *)
(** ** Data of the remote service *)

(** Body of a token grant answer ([refreshData.body], [data.body]). *)
Record Grant : Type := mkGrant { access_token : string; expires_in : Z }.

Record Artist : Type := mkArtist { artist_name : string }.
Record Album : Type := mkAlbum { album_name : string }.

(** A track object of a search answer. *)
Record Track : Type := mkTrack {
  track_id : string;
  track_name : string;
  track_artists : list Artist;
  track_album : Album;
  track_uri : string;
  track_duration_ms : Z;
  track_popularity : Z;
  track_preview_url : option string
}.

(** [response.body] of [searchTracks]: [tracks] may be absent. *)
Record SearchBody : Type := mkSearchBody { tracks_items : option (list Track) }.

Record Owner : Type := mkOwner {
  owner_display_name : option string;
  owner_id : string
}.

Record Image : Type := mkImage { image_url : string }.

(** A playlist object, as listed by [getUserPlaylists] and as returned by
    [getPlaylist]. *)
Record Playlist : Type := mkPlaylist {
  playlist_id : string;
  playlist_name : string;
  playlist_description : option string;
  playlist_tracks_total : Z;
  playlist_uri : string;
  playlist_public : option bool;
  playlist_owner : Owner;
  playlist_images : list Image
}.

(** An entry of a playlist: [item.track] is null, a track (it has
    [artists] and [album]) or an episode (it has neither). *)
Record PlaylistItemTrack : Type := mkPlaylistItemTrack {
  pit_id : string;
  pit_name : string;
  pit_artists : option (list Artist);
  pit_album : option Album;
  pit_duration_ms : Z;
  pit_uri : string
}.

Record PlaylistItem : Type := mkPlaylistItem {
  item_added_at : string;
  item_track : option PlaylistItemTrack
}.

Record PlaylistTracksBody : Type := mkPlaylistTracksBody {
  ptb_items : list PlaylistItem;
  ptb_total : Z
}.

(** The argument of [spotifyApi.play]. *)
Inductive PlayOptions : Type :=
| Uris (uris : list string)          (* { uris: [...] } *)
| ContextUri (context_uri : string). (* { context_uri: ... } *)

(* ================================================================== *)
(** ** Requests to the remote service *)

(** One constructor per method of [spotifyApi] that sends a request. *)
Inductive Request : Type :=
| RefreshAccessToken
| ClientCredentialsGrant
| SearchTracks (query : string) (limit : Z)
| Play (options : PlayOptions)
| GetPlaylist (playlistId : string)
| SetShuffle (state : bool)
| GetUserPlaylists (limit : Z)
| GetPlaylistTracks (playlistId : string) (limit : Z).

(** What the awaited promise of a request settles to on success. *)
Definition Body (r : Request) : Type :=
  match r with
  | RefreshAccessToken => Grant
  | ClientCredentialsGrant => Grant
  | SearchTracks _ _ => SearchBody
  | Play _ => unit
  | GetPlaylist _ => Playlist
  | SetShuffle _ => unit
  | GetUserPlaylists _ => list Playlist
  | GetPlaylistTracks _ _ => PlaylistTracksBody
  end.

(** The promise rejects with an error or fulfils with a body. *)
Definition Response (r : Request) : Type := (Js.Error + Body r)%type.

Definition isGrant (r : Request) : bool :=
  match r with
  | RefreshAccessToken | ClientCredentialsGrant => true
  | _ => false
  end.

(* ================================================================== *)
(** ** Module-level state *)

(** The access token held by [spotifyApi] ([setAccessToken]) and the
    module variable [tokenExpirationTime]. *)
Record TokenState : Type := mkTokenState {
  accessToken : option string;
  tokenExpirationTime : Z
}.

(** [let tokenExpirationTime = 0], no access token set. *)
Definition initialState : TokenState := mkTokenState None 0.

(* ================================================================== *)
(** ** Programs *)

Inductive Prog (A : Type) : Type :=
| Ret (a : A)
| Throw (e : Js.Error)
| DateNow (k : Z -> Prog A)
| GetState (k : TokenState -> Prog A)
| PutState (s : TokenState) (k : Prog A)
| Await (r : Request) (k : Response r -> Prog A).

Arguments Ret {A} a.
Arguments Throw {A} e.
Arguments DateNow {A} k.
Arguments GetState {A} k.
Arguments PutState {A} s k.
Arguments Await {A} r k.

Fixpoint bind {A B : Type} (p : Prog A) (f : A -> Prog B) : Prog B :=
  match p with
  | Ret a => f a
  | Throw e => Throw e
  | DateNow k => DateNow (fun n => bind (k n) f)
  | GetState k => GetState (fun s => bind (k s) f)
  | PutState s k => PutState s (bind k f)
  | Await r k => Await r (fun x => bind (k x) f)
  end.

(** [try { p } catch (error) { h error }] *)
Fixpoint tryCatch {A : Type} (p : Prog A) (h : Js.Error -> Prog A) : Prog A :=
  match p with
  | Ret a => Ret a
  | Throw e => h e
  | DateNow k => DateNow (fun n => tryCatch (k n) h)
  | GetState k => GetState (fun s => tryCatch (k s) h)
  | PutState s k => PutState s (tryCatch k h)
  | Await r k => Await r (fun x => tryCatch (k x) h)
  end.

(** [await spotifyApi.<method>(...)]: a rejected promise throws. *)
Definition await (r : Request) : Prog (Body r) :=
  Await r (fun x => match x with inl e => Throw e | inr b => Ret b end).

(** [spotifyApi.setAccessToken(t)] *)
Definition setAccessToken (t : string) : Prog unit :=
  GetState (fun s =>
  PutState (mkTokenState (Some t) (tokenExpirationTime s)) (Ret tt)).

(** [tokenExpirationTime = t] *)
Definition setTokenExpirationTime (t : Z) : Prog unit :=
  GetState (fun s => PutState (mkTokenState (accessToken s) t) (Ret tt)).

Declare Scope prog_scope.
Delimit Scope prog_scope with prog.
Notation "x <- p ;; q" := (bind p (fun x => q))
  (at level 61, p at next level, right associativity) : prog_scope.
Notation "p ;; q" := (bind p (fun _ => q))
  (at level 61, right associativity) : prog_scope.
Notation "'try' p 'catch' e => h" := (tryCatch p (fun e => h))
  (at level 60, p at level 200, e name, h at level 200) : prog_scope.
Open Scope prog_scope.

(* ================================================================== *)
(** ** Running a program *)

(** The outside of the process: the clock, read for the [n]-th time, and
    the remote service, which answers a request knowing the requests
    issued before it. *)
Record World : Type := mkWorld {
  clock : nat -> Z;
  remote : forall r : Request, list Request -> Response r
}.

(** The process: token state, number of clock readings so far, requests
    issued so far (oldest first). *)
Record Machine : Type := mkMachine {
  state : TokenState;
  ticks : nat;
  trace : list Request
}.

Inductive Outcome (A : Type) : Type :=
| Returned (a : A)
| Thrown (e : Js.Error).

Arguments Returned {A} a.
Arguments Thrown {A} e.

Fixpoint run {A : Type} (w : World) (p : Prog A) (m : Machine)
  : Outcome A * Machine :=
  match p with
  | Ret a => (Returned a, m)
  | Throw e => (Thrown e, m)
  | DateNow k =>
      run w (k (clock w (ticks m))) (mkMachine (state m) (S (ticks m)) (trace m))
  | GetState k => run w (k (state m)) m
  | PutState s k => run w k (mkMachine s (ticks m) (trace m))
  | Await r k =>
      run w (k (remote w r (trace m)))
          (mkMachine (state m) (ticks m) (trace m ++ [r]))
  end.

(** The requests a run adds to the trace are those after the first
    [length (trace m)] entries. *)
Definition issued {A : Type} (w : World) (p : Prog A) (m : Machine)
  : list Request :=
  skipn (List.length (trace m)) (trace (snd (run w p m))).

(* ================================================================== *)
(** ** spotify-client.ts *)

Section Client.

(** [process.env.SPOTIFY_REFRESH_TOKEN]: absent or a string. *)
Variable SPOTIFY_REFRESH_TOKEN : option string.

(** Truthiness of an environment variable: set and not empty. *)
Definition truthy (v : option string) : bool :=
  match v with
  | Some s => negb (String.eqb s "")
  | None => false
  end.

(** [ensureAccessToken] *)
Definition ensureAccessToken : Prog unit :=
  DateNow (fun now =>
  GetState (fun st =>
  if now >=? tokenExpirationTime st - 60000 then
    try
      (if truthy SPOTIFY_REFRESH_TOKEN then
         try
           (refreshData <- await RefreshAccessToken ;;
            setAccessToken (access_token refreshData) ;;
            setTokenExpirationTime
              (now + expires_in refreshData * 1000 - 60000))
         catch refreshError =>
           Throw (Js.newError
                    "Failed to refresh access token with refresh token")
       else
         data <- await ClientCredentialsGrant ;;
         setAccessToken (access_token data) ;;
         setTokenExpirationTime (now + expires_in data * 1000 - 60000))
    catch error =>
      Throw (Js.newError "Failed to authenticate with Spotify")
  else Ret tt)).

(** *** What the facade returns *)

(** [TextContent]: its [type] is always ["text"]; only [text] varies. *)
Record TextContent : Type := mkText { text : string }.

(** The object [searchTracks] serialises for each track. *)
Record TrackSummary : Type := mkTrackSummary {
  ts_id : string;
  ts_name : string;
  ts_artist : string;
  ts_album : string;
  ts_uri : string;
  ts_duration_ms : Z;
  ts_popularity : Z;
  ts_preview_url : option string
}.

(** The object [getUserPlaylists] serialises for each playlist. *)
Record PlaylistSummary : Type := mkPlaylistSummary {
  ps_id : string;
  ps_name : string;
  ps_description : option string;
  ps_tracks_total : Z;
  ps_uri : string;
  ps_public : option bool;
  ps_owner : string;
  ps_image : option string
}.

(** The objects [getPlaylistTracks] serialises. *)
Inductive TrackEntry : Type :=
| UnknownTrack (position : Z) (added_at : string)
| KnownTrack (position : Z) (id name artist album : string)
             (duration_ms : Z) (added_at uri : string).

Record PlaylistTracksSummary : Type := mkPlaylistTracksSummary {
  pts_playlist_name : string;
  pts_total_tracks : Z;
  pts_tracks : list TrackEntry
}.

(** [JSON.stringify(v, null, 2)] at the three types the facade
    serialises, and [JSON.parse] at the two types the tool handlers read
    back; [JSON.parse] throws a [SyntaxError] on other text. *)
Record JSON : Type := mkJSON {
  stringify_track : TrackSummary -> string;
  stringify_playlists : list PlaylistSummary -> string;
  stringify_playlist_tracks : PlaylistTracksSummary -> string;
  parse_track : string -> Js.Error + TrackSummary;
  parse_playlists : string -> Js.Error + list PlaylistSummary
}.

Variable json : JSON.

(** A default parameter value: used when the argument is [undefined]. *)
Definition defaultTo {A : Type} (d : A) (arg : option A) : A :=
  match arg with Some a => a | None => d end.

Definition summarizeTrack (track : Track) : TrackSummary :=
  mkTrackSummary
    (track_id track)
    (track_name track)
    (Js.join ", " (map artist_name (track_artists track)))
    (album_name (track_album track))
    (track_uri track)
    (track_duration_ms track)
    (track_popularity track)
    (track_preview_url track).

(** [searchTracks] *)
Definition searchTracks (query : string) (limitArg : option Z)
  : Prog (list TextContent) :=
  let limit := defaultTo 5 limitArg in
  ensureAccessToken ;;
  try
    (response <- await (SearchTracks query limit) ;;
     match tracks_items response with
     | Some (item :: items) =>
         Ret (map (fun track =>
                     mkText (stringify_track json (summarizeTrack track)))
                  (item :: items))
     | _ => Ret [mkText "No tracks found matching your query."]
     end)
  catch error =>
    Ret [mkText ("Error searching for tracks: " ++ Js.String_ error)].

(** The expression of [playTrack] and [playPlaylist] that turns an id
    or a URI into a URI: [x.startsWith(p) ? x : `${p}${x}`]. *)
Definition toUri (prefix x : string) : string :=
  if Js.startsWith x prefix then x else prefix ++ x.

Definition trackUri : string -> string := toUri "spotify:track:".
Definition playlistUri : string -> string := toUri "spotify:playlist:".

Definition NOT_PREMIUM_text : string :=
  "Error: This functionality requires a Spotify Premium account.".
Definition PERMISSION_text : string :=
  "Error: Missing required permissions. Make sure your refresh token has the user-modify-playback-state scope.".
Definition NO_ACTIVE_DEVICE_text : string :=
  "Error: No active Spotify playback device found. Please open Spotify on a device first.".

(** The [catch] block of [playTrack]: what it returns for the caught
    [error]. *)
Definition playTrack_catch (error : Js.Error) : list TextContent :=
  let errorMessage := Js.String_ error in
  if Js.includes errorMessage "NOT_PREMIUM" then
    [mkText NOT_PREMIUM_text]
  else if Js.includes errorMessage "PERMISSION" then
    [mkText PERMISSION_text]
  else if Js.includes errorMessage "NO_ACTIVE_DEVICE" then
    [mkText NO_ACTIVE_DEVICE_text]
  else
    [mkText ("Error playing track: " ++ Js.String_ error)].

(** [playTrack] *)
Definition playTrack (trackId : string) : Prog (list TextContent) :=
  ensureAccessToken ;;
  try
    (let uri := trackUri trackId in
     await (Play (Uris [uri])) ;;
     Ret [mkText ("Now playing track with URI: " ++ uri)])
  catch error => Ret (playTrack_catch error).

(** [a || b] on strings one of which may be absent. *)
Definition orElse (a : option string) (b : string) : string :=
  match a with
  | Some s => if String.eqb s "" then b else s
  | None => b
  end.

Definition summarizePlaylist (playlist : Playlist) : PlaylistSummary :=
  mkPlaylistSummary
    (playlist_id playlist)
    (playlist_name playlist)
    (playlist_description playlist)
    (playlist_tracks_total playlist)
    (playlist_uri playlist)
    (playlist_public playlist)
    (orElse (owner_display_name (playlist_owner playlist))
            (owner_id (playlist_owner playlist)))
    (match playlist_images playlist with
     | image :: _ => Some (image_url image)
     | [] => None
     end).

(** [getUserPlaylists] *)
Definition getUserPlaylists (limitArg : option Z)
  : Prog (list TextContent) :=
  let limit := defaultTo 20 limitArg in
  ensureAccessToken ;;
  try
    (response <- await (GetUserPlaylists limit) ;;
     match response with
     | _ :: _ =>
         Ret [mkText (stringify_playlists json
                        (map summarizePlaylist response))]
     | [] => Ret [mkText "No playlists found."]
     end)
  catch error =>
    Ret [mkText ("Error getting user playlists: " ++ Js.String_ error)].

(** The callback of [response.body.items.map((item, index) => ...)]. *)
Definition summarizeItem (index : Z) (item : PlaylistItem) : TrackEntry :=
  match item_track item with
  | None => UnknownTrack (index + 1) (item_added_at item)
  | Some track =>
      KnownTrack
        (index + 1)
        (pit_id track)
        (pit_name track)
        (match pit_artists track with
         | Some artists => Js.join ", " (map artist_name artists)
         | None => "Unknown"
         end)
        (match pit_album track with
         | Some album => album_name album
         | None => "Unknown"
         end)
        (pit_duration_ms track)
        (item_added_at item)
        (pit_uri track)
  end.

Fixpoint mapi {A B : Type} (f : Z -> A -> B) (index : Z) (xs : list A)
  : list B :=
  match xs with
  | [] => []
  | x :: xs' => f index x :: mapi f (index + 1) xs'
  end.

(** [getPlaylistTracks] *)
Definition getPlaylistTracks (playlistId : string) (limitArg : option Z)
  : Prog (list TextContent) :=
  let limit := defaultTo 50 limitArg in
  ensureAccessToken ;;
  try
    (playlistResponse <- await (GetPlaylist playlistId) ;;
     let playlistName := playlist_name playlistResponse in
     response <- await (GetPlaylistTracks playlistId limit) ;;
     match ptb_items response with
     | _ :: _ =>
         Ret [mkText
                (stringify_playlist_tracks json
                   (mkPlaylistTracksSummary
                      playlistName
                      (ptb_total response)
                      (mapi summarizeItem 0 (ptb_items response))))]
     | [] =>
         Ret [mkText ("Playlist " ++ Js.dq ++ playlistName ++ Js.dq
                      ++ " is empty.")]
     end)
  catch error =>
    Ret [mkText ("Error getting playlist tracks: " ++ Js.String_ error)].

(** The [catch] block of [playPlaylist]. *)
Definition playPlaylist_catch (error : Js.Error) : list TextContent :=
  let errorMessage := Js.String_ error in
  if Js.includes errorMessage "NOT_PREMIUM" then
    [mkText NOT_PREMIUM_text]
  else if Js.includes errorMessage "PERMISSION" then
    [mkText PERMISSION_text]
  else if Js.includes errorMessage "NO_ACTIVE_DEVICE" then
    [mkText NO_ACTIVE_DEVICE_text]
  else
    [mkText ("Error playing playlist: " ++ Js.String_ error)].

(** [playPlaylist]. The parameter is declared [shuffle: boolean = false],
    so inside the body [shuffle] is never [undefined]: the value tested
    by [shuffle !== undefined] is the defaulted one. *)
Definition playPlaylist (playlistId : string) (shuffleArg : option bool)
  : Prog (list TextContent) :=
  let shuffle : option bool := Some (defaultTo false shuffleArg) in
  ensureAccessToken ;;
  try
    (playlistResponse <- await (GetPlaylist playlistId) ;;
     let playlistName := playlist_name playlistResponse in
     match shuffle with
     | Some b => await (SetShuffle b)
     | None => Ret tt
     end ;;
     let uri := playlistUri playlistId in
     await (Play (ContextUri uri)) ;;
     Ret [mkText ("Now playing playlist " ++ Js.dq ++ playlistName ++ Js.dq
                  ++ " "
                  ++ (if defaultTo false shuffle
                      then "on shuffle mode" else "in order")
                  ++ ".")])
  catch error => Ret (playPlaylist_catch error).

(* ================================================================ *)
(** ** index.ts: the two convenience tools *)

(** [String.prototype.toLowerCase]. *)
Variable toLowerCase : string -> string.

(** Handler of [spotify-search-and-play]; the returned list is the
    [content] of the tool result. *)
Definition spotify_search_and_play (query : string)
  : Prog (list TextContent) :=
  searchResults <- searchTracks query (Some 1) ;;
  match searchResults with
  | [] =>
      Ret [mkText ("No tracks found matching " ++ Js.dq ++ query ++ Js.dq)]
  | first :: _ =>
      if String.eqb (text first) "No tracks found matching your query."
      then
        Ret [mkText ("No tracks found matching "
                     ++ Js.dq ++ query ++ Js.dq)]
      else
        try
          (match parse_track json (text first) with
           | inl syntaxError => Throw syntaxError
           | inr track =>
               playResult <- playTrack (ts_id track) ;;
               Ret [mkText ("Found and playing: " ++ Js.dq ++ ts_name track
                            ++ Js.dq ++ " by " ++ ts_artist track)]
           end)
        catch error =>
          Ret [mkText ("Error trying to play track: "
                       ++ Js.String_ error)]
  end.

(** The callback of [playlists.filter(...)]. *)
Definition matches (searchTerm : string) (playlist : PlaylistSummary)
  : bool :=
  Js.includes (toLowerCase (ps_name playlist)) searchTerm.

(** Handler of [spotify-find-playlist]. *)
Definition spotify_find_playlist (name : string) (shuffle : option bool)
  : Prog (list TextContent) :=
  let noPlaylists := Ret [mkText "No playlists found for your account."] in
  try
    (playlistsResult <- getUserPlaylists (Some 50) ;;
     match playlistsResult with
     | [] => noPlaylists
     | first :: _ =>
         if String.eqb (text first) "No playlists found." then noPlaylists
         else
           match parse_playlists json (text first) with
           | inl syntaxError => Throw syntaxError
           | inr playlists =>
               let searchTerm := toLowerCase name in
               let matchingPlaylists :=
                 filter (matches searchTerm) playlists in
               match matchingPlaylists with
               | [] =>
                   Ret [mkText ("No playlists found matching "
                                ++ Js.dq ++ name ++ Js.dq ++ ".")]
               | playlist :: _ =>
                   playResult <- playPlaylist (ps_id playlist) shuffle ;;
                   Ret [mkText
                          ("Found and playing playlist: "
                           ++ Js.dq ++ ps_name playlist ++ Js.dq ++ " "
                           ++ (if defaultTo false shuffle
                               then "on shuffle mode" else "in order"))]
               end
           end
     end)
  catch error =>
    Ret [mkText ("Error trying to find and play playlist: "
                 ++ Js.String_ error)].

End Client.


(* ================================================================== *)
(** ** Vocabulary of the properties *)

(** The grant request [ensureAccessToken] chooses under a given
    environment, and the answer of the remote service to it. *)
Definition grantFlow (env : option string) : Request :=
  if truthy env then RefreshAccessToken else ClientCredentialsGrant.

Definition grantAnswer (w : World) (env : option string) (tr : list Request)
  : Js.Error + Grant :=
  if truthy env then remote w RefreshAccessToken tr
  else remote w ClientCredentialsGrant tr.





(** States in which [tokenExpirationTime] was only ever written together
    with a token: without a token it still has its initial value. *)
Definition tracked (s : TokenState) : Prop :=
  accessToken s = None -> tokenExpirationTime s = 0.

(** The machine after the requests [rs] were sent. *)
Definition sent (m : Machine) (rs : list Request) : Machine :=
  mkMachine (state m) (ticks m) (trace m ++ rs).

(** The identifier a request carries, when it carries one. *)
Definition identifierOf (r : Request) : option string :=
  match r with
  | Play (Uris [uri]) => Some uri
  | Play (ContextUri uri) => Some uri
  | GetPlaylist playlistId => Some playlistId
  | GetPlaylistTracks playlistId _ => Some playlistId
  | _ => None
  end.

(** Every request of [rs] that carries an identifier carries [uri]. *)
Definition carryOnly (uri : string) (rs : list Request) : Prop :=
  Forall (fun r => forall x, identifierOf r = Some x -> x = uri) rs.

Definition isPlay (r : Request) : bool :=
  match r with Play _ => true | _ => false end.

(** The text [t] is the one the classification yields for [error] when
    the three substrings are looked for in the order NOT_PREMIUM,
    PERMISSION, NO_ACTIVE_DEVICE and [generic] introduces the raw error
    otherwise. *)
Definition byPrecedence (generic : string) (error : Js.Error) (t : string)
  : Prop :=
  let errorMessage := Js.String_ error in
  (Js.includes errorMessage "NOT_PREMIUM" = true -> t = NOT_PREMIUM_text) /\
  (Js.includes errorMessage "NOT_PREMIUM" = false ->
   Js.includes errorMessage "PERMISSION" = true -> t = PERMISSION_text) /\
  (Js.includes errorMessage "NOT_PREMIUM" = false ->
   Js.includes errorMessage "PERMISSION" = false ->
   Js.includes errorMessage "NO_ACTIVE_DEVICE" = true ->
   t = NO_ACTIVE_DEVICE_text) /\
  (Js.includes errorMessage "NOT_PREMIUM" = false ->
   Js.includes errorMessage "PERMISSION" = false ->
   Js.includes errorMessage "NO_ACTIVE_DEVICE" = false ->
   t = generic ++ errorMessage /\ Js.includes t errorMessage = true).

(** The first error among the answers to the three requests of
    [playPlaylist], sent from trace [tr] on; the playlist when all three
    succeed. *)
Definition playPlaylist_answers (w : World) (tr : list Request)
           (playlistId : string) (shuffle : bool) : Js.Error + Playlist :=
  match remote w (GetPlaylist playlistId) tr with
  | inl error => inl error
  | inr playlist =>
      match remote w (SetShuffle shuffle) (tr ++ [GetPlaylist playlistId]) with
      | inl error => inl error
      | inr _ =>
          match remote w (Play (ContextUri (playlistUri playlistId)))
                       (tr ++ [GetPlaylist playlistId; SetShuffle shuffle])
          with
          | inl error => inl error
          | inr _ => inr playlist
          end
      end
  end.

(** The program [p] answers with the single text [t] and sends no play
    request. *)
Definition answersWithoutPlaying (w : World) (p : Prog (list TextContent))
           (m : Machine) (t : string) : Prop :=
  fst (run w p m) = Returned [mkText t] /\
  Forall (fun r => isPlay r = false) (issued w p m).

(** The name of [playlist] contains [name], letter case aside. *)
Definition nameContains (toLowerCase : string -> string) (name : string)
           (playlist : Playlist) : bool :=
  Js.includes (toLowerCase (playlist_name playlist)) (toLowerCase name).

(** The listing [items], serialised by [getUserPlaylists], is read back
    by [JSON.parse] as it was written, and its text is not the sentence
    that stands for an empty listing. *)
Definition readsBack (json : JSON) (items : list Playlist) : Prop :=
  let written := map summarizePlaylist items in
  parse_playlists json (stringify_playlists json written) = inr written /\
  stringify_playlists json written <> "No playlists found.".

(* ================================================================== *)
(** ** A JSON text codec and a sample world

    A concrete [JSON] for the objects of the facade: flat objects whose
    values are strings, integers, booleans or [null], printed with the
    two-space layout of [JSON.stringify(v, null, 2)] and read back by a
    small parser.  The examples and the instances of the theorems below
    run the code with it. *)

Module JsonText.

Inductive scalar : Type :=
| SNull
| SBool (b : bool)
| SNum (z : Z)
| SStr (s : string).

Definition object : Type := list (string * scalar).

Definition nl : string := String "010"%char EmptyString.
Definition isDq (c : ascii) : bool := Ascii.eqb c "034"%char.
Definition isBackslash (c : ascii) : bool := Ascii.eqb c "\"%char.
Definition isWs (c : ascii) : bool :=
  Ascii.eqb c " "%char || Ascii.eqb c "010"%char.

(** *** Printing *)

Fixpoint escape (s : string) : string :=
  match s with
  | EmptyString => EmptyString
  | String c s' =>
      if isDq c || isBackslash c
      then String "\"%char (String c (escape s'))
      else String c (escape s')
  end.

Definition quote (s : string) : string := Js.dq ++ escape s ++ Js.dq.

Definition showScalar (v : scalar) : string :=
  match v with
  | SNull => "null"
  | SBool true => "true"
  | SBool false => "false"
  | SNum z => NilZero.string_of_int (Z.to_int z)
  | SStr s => quote s
  end.

Definition showObject (indent : string) (o : object) : string :=
  "{" ++ nl
  ++ Js.join ("," ++ nl)
       (map (fun kv => indent ++ "  " ++ quote (fst kv) ++ ": "
                       ++ showScalar (snd kv)) o)
  ++ nl ++ indent ++ "}".

Definition showArray (os : list object) : string :=
  "[" ++ nl
  ++ Js.join ("," ++ nl) (map (fun o => "  " ++ showObject "  " o) os)
  ++ nl ++ "]".

(** *** Parsing *)

Fixpoint skipWs (s : string) : string :=
  match s with
  | String c s' => if isWs c then skipWs s' else s
  | EmptyString => EmptyString
  end.

(** The text after an opening quote: the literal and what follows its
    closing quote. *)
Fixpoint readString (s : string) : option (string * string) :=
  match s with
  | EmptyString => None
  | String c s' =>
      if isDq c then Some (EmptyString, s')
      else if isBackslash c then
        match s' with
        | EmptyString => None
        | String c' s'' =>
            match readString s'' with
            | Some (t, rest) => Some (String c' t, rest)
            | None => None
            end
        end
      else
        match readString s' with
        | Some (t, rest) => Some (String c t, rest)
        | None => None
        end
  end.

Definition isNumChar (c : ascii) : bool :=
  Ascii.eqb c "-"%char
  || ((48 <=? nat_of_ascii c)%nat && (nat_of_ascii c <=? 57)%nat).

Fixpoint spanNum (s : string) : string * string :=
  match s with
  | String c s' =>
      if isNumChar c
      then let (d, rest) := spanNum s' in (String c d, rest)
      else (EmptyString, s)
  | EmptyString => (EmptyString, EmptyString)
  end.

Definition dropPrefix (p s : string) : option string :=
  if Js.startsWith s p
  then Some (substring (String.length p)
                       (String.length s - String.length p) s)
  else None.

Definition readScalar (s : string) : option (scalar * string) :=
  match s with
  | String c s' =>
      if isDq c then
        match readString s' with
        | Some (t, rest) => Some (SStr t, rest)
        | None => None
        end
      else
        match dropPrefix "null" s, dropPrefix "true" s,
              dropPrefix "false" s with
        | Some rest, _, _ => Some (SNull, rest)
        | _, Some rest, _ => Some (SBool true, rest)
        | _, _, Some rest => Some (SBool false, rest)
        | _, _, _ =>
            let (d, rest) := spanNum s in
            match NilZero.int_of_string d with
            | Some i => Some (SNum (Z.of_int i), rest)
            | None => None
            end
        end
  | EmptyString => None
  end.

(** The fields of an object, after its opening brace. *)
Fixpoint readFields (fuel : nat) (s : string) : option (object * string) :=
  match fuel with
  | O => None
  | S fuel' =>
      match skipWs s with
      | String c s1 =>
          if isDq c then
            match readString s1 with
            | Some (key, s2) =>
                match skipWs s2 with
                | String ":" s3 =>
                    match readScalar (skipWs s3) with
                    | Some (v, s4) =>
                        match skipWs s4 with
                        | String "," s5 =>
                            match readFields fuel' s5 with
                            | Some (o, rest) => Some ((key, v) :: o, rest)
                            | None => None
                            end
                        | String "}" s5 => Some ([(key, v)], s5)
                        | _ => None
                        end
                    | None => None
                    end
                | _ => None
                end
            | None => None
            end
          else None
      | EmptyString => None
      end
  end.

Definition readObject (s : string) : option (object * string) :=
  match skipWs s with
  | String "{" s1 => readFields (String.length s1) s1
  | _ => None
  end.

(** The elements of an array, after its opening bracket. *)
Fixpoint readObjects (fuel : nat) (s : string)
  : option (list object * string) :=
  match fuel with
  | O => None
  | S fuel' =>
      match readObject s with
      | Some (o, s1) =>
          match skipWs s1 with
          | String "," s2 =>
              match readObjects fuel' s2 with
              | Some (os, rest) => Some (o :: os, rest)
              | None => None
              end
          | String "]" s2 => Some ([o], s2)
          | _ => None
          end
      | None => None
      end
  end.

Definition parseObject (s : string) : option object :=
  match readObject s with
  | Some (o, rest) =>
      match skipWs rest with
      | EmptyString => Some o
      | _ => None
      end
  | None => None
  end.

Definition parseArray (s : string) : option (list object) :=
  match skipWs s with
  | String "[" s1 =>
      match readObjects (String.length s1) s1 with
      | Some (os, rest) =>
          match skipWs rest with
          | EmptyString => Some os
          | _ => None
          end
      | None => None
      end
  | _ => None
  end.

(** *** The objects of the facade *)

Definition optStr (v : option string) : scalar :=
  match v with Some s => SStr s | None => SNull end.
Definition optBool (v : option bool) : scalar :=
  match v with Some b => SBool b | None => SNull end.

Definition ofTrack (t : TrackSummary) : object :=
  [("id", SStr (ts_id t)); ("name", SStr (ts_name t));
   ("artist", SStr (ts_artist t)); ("album", SStr (ts_album t));
   ("uri", SStr (ts_uri t)); ("duration_ms", SNum (ts_duration_ms t));
   ("popularity", SNum (ts_popularity t));
   ("preview_url", optStr (ts_preview_url t))].

Definition ofPlaylist (p : PlaylistSummary) : object :=
  [("id", SStr (ps_id p)); ("name", SStr (ps_name p));
   ("description", optStr (ps_description p));
   ("tracks_total", SNum (ps_tracks_total p));
   ("uri", SStr (ps_uri p)); ("public", optBool (ps_public p));
   ("owner", SStr (ps_owner p)); ("image", optStr (ps_image p))].

Definition ofEntry (e : TrackEntry) : object :=
  match e with
  | UnknownTrack position added_at =>
      [("position", SNum position); ("name", SStr "Unknown track");
       ("added_at", SStr added_at)]
  | KnownTrack position id name artist album duration_ms added_at uri =>
      [("position", SNum position); ("id", SStr id); ("name", SStr name);
       ("artist", SStr artist); ("album", SStr album);
       ("duration_ms", SNum duration_ms); ("added_at", SStr added_at);
       ("uri", SStr uri)]
  end.

Definition showPlaylistTracks (s : PlaylistTracksSummary) : string :=
  "{" ++ nl
  ++ "  " ++ quote "playlist_name" ++ ": " ++ quote (pts_playlist_name s)
  ++ "," ++ nl
  ++ "  " ++ quote "total_tracks" ++ ": "
  ++ showScalar (SNum (pts_total_tracks s)) ++ "," ++ nl
  ++ "  " ++ quote "tracks" ++ ": ["
  ++ Js.join "," (map (fun e => nl ++ "    " ++ showObject "    " (ofEntry e))
                      (pts_tracks s))
  ++ nl ++ "  ]" ++ nl ++ "}".

Fixpoint field (k : string) (o : object) : option scalar :=
  match o with
  | [] => None
  | (k', v) :: o' => if String.eqb k k' then Some v else field k o'
  end.

Definition str (k : string) (o : object) : option string :=
  match field k o with Some (SStr s) => Some s | _ => None end.
Definition num (k : string) (o : object) : option Z :=
  match field k o with Some (SNum z) => Some z | _ => None end.
Definition strOrNull (k : string) (o : object) : option (option string) :=
  match field k o with
  | Some (SStr s) => Some (Some s)
  | Some SNull => Some None
  | _ => None
  end.
Definition boolOrNull (k : string) (o : object) : option (option bool) :=
  match field k o with
  | Some (SBool b) => Some (Some b)
  | Some SNull => Some None
  | _ => None
  end.

Definition toTrack (o : object) : option TrackSummary :=
  match str "id" o, str "name" o, str "artist" o, str "album" o,
        str "uri" o, num "duration_ms" o, num "popularity" o,
        strOrNull "preview_url" o with
  | Some a, Some b, Some c, Some d, Some e, Some f, Some g, Some h =>
      Some (mkTrackSummary a b c d e f g h)
  | _, _, _, _, _, _, _, _ => None
  end.

Definition toPlaylist (o : object) : option PlaylistSummary :=
  match str "id" o, str "name" o, strOrNull "description" o,
        num "tracks_total" o, str "uri" o, boolOrNull "public" o,
        str "owner" o, strOrNull "image" o with
  | Some a, Some b, Some c, Some d, Some e, Some f, Some g, Some h =>
      Some (mkPlaylistSummary a b c d e f g h)
  | _, _, _, _, _, _, _, _ => None
  end.

Fixpoint traverse {A B : Type} (f : A -> option B) (xs : list A)
  : option (list B) :=
  match xs with
  | [] => Some []
  | x :: xs' =>
      match f x, traverse f xs' with
      | Some y, Some ys => Some (y :: ys)
      | _, _ => None
      end
  end.

Definition syntaxError : Js.Error :=
  Js.mkError "SyntaxError" "Unexpected token in JSON".

Definition orSyntaxError {A : Type} (v : option A) : Js.Error + A :=
  match v with Some a => inr a | None => inl syntaxError end.

Definition json : JSON :=
  mkJSON
    (fun t => showObject "" (ofTrack t))
    (fun ps => showArray (map ofPlaylist ps))
    showPlaylistTracks
    (fun s => orSyntaxError
                (match parseObject s with
                 | Some o => toTrack o
                 | None => None
                 end))
    (fun s => orSyntaxError
                (match parseArray s with
                 | Some os => traverse toPlaylist os
                 | None => None
                 end)).

End JsonText.

(** [toLowerCase] on the letters A to Z. *)
Definition lowerAscii (c : ascii) : ascii :=
  let n := nat_of_ascii c in
  if ((65 <=? n) && (n <=? 90))%nat then ascii_of_nat (n + 32) else c.

Fixpoint toLowerCaseAscii (s : string) : string :=
  match s with
  | EmptyString => EmptyString
  | String c s' => String (lowerAscii c) (toLowerCaseAscii s')
  end.

Module Sample.

Definition bohemian : Track :=
  mkTrack "4u7EnebtmKWzUH433cf5Qv" "Bohemian Rhapsody" [mkArtist "Queen"]
          (mkAlbum "A Night At The Opera")
          "spotify:track:4u7EnebtmKWzUH433cf5Qv" 354320 88 None.

Definition roadtrip : Playlist :=
  mkPlaylist "37i9dQZF1DX9wC1KY45plY" "Summer Roadtrip" (Some "Windows down")
             42 "spotify:playlist:37i9dQZF1DX9wC1KY45plY" (Some true)
             (mkOwner (Some "EJ") "ejfox") [].

Definition chill : Playlist :=
  mkPlaylist "37i9dQZF1DX4WYpdgoIcn6" "Chill" None
             12 "spotify:playlist:37i9dQZF1DX4WYpdgoIcn6" None
             (mkOwner None "ejfox") [mkImage "https://i.scdn.co/image/ab67"].

(** A world whose clock always reads [t], whose token grants are
    answered by [grant], whose searches find [found], whose play
    requests are answered by [played] and whose account has the
    playlists [lists]. *)
Definition world (t : Z) (grant : Js.Error + Grant) (found : list Track)
           (played : Js.Error + unit) (lists : list Playlist) : World :=
  mkWorld
    (fun _ => t)
    (fun r _ =>
       match r return Response r with
       | RefreshAccessToken => grant
       | ClientCredentialsGrant => grant
       | SearchTracks _ _ => inr (mkSearchBody (Some found))
       | Play _ => played
       | GetPlaylist _ => inr roadtrip
       | SetShuffle _ => inr tt
       | GetUserPlaylists _ => inr lists
       | GetPlaylistTracks _ _ => inr (mkPlaylistTracksBody [] 0)
       end).

(** The process at start-up. *)
Definition start : Machine := mkMachine initialState 0 [].

(** The process holding a token that [tokenExpirationTime] tracks
    until [t]. *)
Definition holding (t : Z) : Machine :=
  mkMachine (mkTokenState (Some "BQDa") t) 0 [].

Definition hour : Js.Error + Grant := inr (mkGrant "BQDb" 3600).

Definition library : list Playlist := [roadtrip; chill].

(** Everything succeeds; grants last one hour. *)
Definition calm : World :=
  world 1000000 hour [bohemian] (inr tt) library.

(** The token grant is rejected. *)
Definition rejecting : World :=
  world 1000000
        (inl (Js.mkError "WebapiAuthenticationError" "invalid_grant"))
        [bohemian] (inr tt) library.


(** Play requests fail: the account may not control playback, and no
    device is active. *)
Definition restricted : World :=
  world 1000000 hour [bohemian]
        (inl (Js.mkError "WebapiPlayerError"
                "Player command failed: PERMISSION denied (NO_ACTIVE_DEVICE)"))
        library.

(** Play requests fail: no device is active. *)
Definition idle : World :=
  world 1000000 hour [bohemian]
        (inl (Js.mkError "WebapiPlayerError"
                "Player command failed: No active device found NO_ACTIVE_DEVICE"))
        library.

(** Searches find nothing and the account has no playlist. *)
Definition empty : World :=
  world 1000000 hour [] (inr tt) [].

End Sample.

(* ================================================================== *)
(** ** Further vocabulary and sample worlds *)

(** The [position] of an entry of a playlist listing. *)
Definition entryPosition (e : TrackEntry) : Z :=
  match e with
  | UnknownTrack position _ => position
  | KnownTrack position _ _ _ _ _ _ _ => position
  end.

(** The summary of [track], serialised by [searchTracks], is read back by
    [JSON.parse] as it was written, and its text is not the sentence that
    stands for an empty search. *)
Definition readsBackTrack (json : JSON) (track : Track) : Prop :=
  let written := stringify_track json (summarizeTrack track) in
  parse_track json written = inr (summarizeTrack track) /\
  written <> "No tracks found matching your query.".

Module Fixture.

(** A world whose clock always reads 1000000, whose grants last one hour
    and whose play requests succeed; the other answers are given. *)
Definition world (search : Js.Error + SearchBody)
           (lookup : Js.Error + Playlist) (shuffled : Js.Error + unit)
           (listing : Js.Error + list Playlist)
           (tracks : Js.Error + PlaylistTracksBody) : World :=
  mkWorld
    (fun _ => 1000000)
    (fun r _ =>
       match r return Response r with
       | RefreshAccessToken => Sample.hour
       | ClientCredentialsGrant => Sample.hour
       | SearchTracks _ _ => search
       | Play _ => inr tt
       | GetPlaylist _ => lookup
       | SetShuffle _ => shuffled
       | GetUserPlaylists _ => listing
       | GetPlaylistTracks _ _ => tracks
       end).

Definition notFound : Js.Error :=
  Js.mkError "WebapiRegularError" "Resource not found".

Definition found : Js.Error + SearchBody :=
  inr (mkSearchBody (Some [Sample.bohemian])).

Definition page : PlaylistTracksBody :=
  mkPlaylistTracksBody
    [mkPlaylistItem "2024-05-01T10:00:00Z"
       (Some (mkPlaylistItemTrack "4u7EnebtmKWzUH433cf5Qv" "Bohemian Rhapsody"
                (Some [mkArtist "Queen"]) (Some (mkAlbum "A Night At The Opera"))
                354320 "spotify:track:4u7EnebtmKWzUH433cf5Qv"));
     mkPlaylistItem "2024-05-02T10:00:00Z" None]
    2.

(** The playlist lookup fails. *)
Definition unknownPlaylist : World :=
  world found (inl notFound) (inr tt) (inr Sample.library) (inr page).

(** The listing of the playlists fails. *)
Definition noListing : World :=
  world found (inr Sample.roadtrip) (inr tt) (inl notFound) (inr page).

(** The search fails. *)
Definition noSearch : World :=
  world (inl notFound) (inr Sample.roadtrip) (inr tt) (inr Sample.library)
        (inr page).

(** The first grant lasts 30 seconds; every later grant is rejected. *)
Definition expiring : World :=
  mkWorld
    (fun _ => 1000000)
    (fun r tr =>
       match r return Response r with
       | RefreshAccessToken =>
           match tr with
           | [] => inr (mkGrant "BQDc" 30)
           | _ => inl (Js.mkError "WebapiAuthenticationError" "invalid_grant")
           end
       | ClientCredentialsGrant =>
           match tr with
           | [] => inr (mkGrant "BQDc" 30)
           | _ => inl (Js.mkError "WebapiAuthenticationError" "invalid_grant")
           end
       | SearchTracks _ _ => found
       | Play _ => inr tt
       | GetPlaylist _ => inr Sample.roadtrip
       | SetShuffle _ => inr tt
       | GetUserPlaylists _ => inr Sample.library
       | GetPlaylistTracks _ _ => inr page
       end).

(** The clock reads [t]; everything succeeds as in [Sample.calm]. *)
Definition later (t : Z) : World :=
  Sample.world t Sample.hour [Sample.bohemian] (inr tt) Sample.library.

End Fixture.

(* ================================================================== *)
(** ** simple-auth.js *)

Module SimpleAuth.

(** [s.substring(n)] *)
Fixpoint drop (n : nat) (s : string) : string :=
  match n, s with
  | S n', String _ s' => drop n' s'
  | _, _ => s
  end.

Definition isAmp (c : ascii) : bool := Ascii.eqb c "&"%char.

(** The longest run of characters other than '&' at the start of [s]:
    what [[^&]+] takes there, when it is not empty. *)
Fixpoint notAmp (s : string) : string :=
  match s with
  | String c s' => if isAmp c then EmptyString else String c (notAmp s')
  | EmptyString => EmptyString
  end.

(** What [/code=([^&]+)/] captures when it is tried at the start of [s];
    empty when it does not match there. *)
Definition codeAt (s : string) : string :=
  if Js.startsWith s "code=" then notAmp (drop 5 s) else EmptyString.

(** Group 1 of [input.match(/code=([^&]+)/)]: the pattern is tried at each
    position from the left, and the first match counts. *)
Fixpoint matchCode (s : string) : option string :=
  match codeAt s with
  | String c code => Some (String c code)
  | EmptyString =>
      match s with
      | String _ s' => matchCode s'
      | EmptyString => None
      end
  end.

Definition REDIRECT_URI : string := "http://localhost:8888".

Section Script.

(** [String.prototype.trim] and [encodeURIComponent]. *)
Variable trim : string -> string.
Variable encodeURIComponent : string -> string.

(** The two literals of the script that name the registered application
    and its secret. *)
Variable CLIENT_ID : string.
Variable CLIENT_SECRET : string.

Definition nl : string := String "010"%char EmptyString.

(** The text logged for an extracted [code]. *)
Definition commandText (code : string) : string :=
  nl ++ "Your authorization code is: " ++ code ++ nl
  ++ nl
  ++ "To get a refresh token, use this command:" ++ nl
  ++ "curl -X POST " ++ Js.dq ++ "https://accounts.spotify.com/api/token"
  ++ Js.dq ++ " \" ++ nl
  ++ "     -H " ++ Js.dq
  ++ "Content-Type: application/x-www-form-urlencoded" ++ Js.dq
  ++ " \" ++ nl
  ++ "     -d " ++ Js.dq ++ "grant_type=authorization_code&code=" ++ code
  ++ "&redirect_uri=" ++ encodeURIComponent REDIRECT_URI
  ++ "&client_id=" ++ CLIENT_ID ++ "&client_secret=" ++ CLIENT_SECRET
  ++ Js.dq ++ nl.

Definition couldNotExtract : string :=
  "Could not extract code from the URL. Please try again.".

Definition pleasePaste : string :=
  "Please paste the full URL containing the code parameter.".

(** The listener of [process.stdin.on('data', ...)]: the text it logs
    before the process exits. *)
Definition onData (data : string) : string :=
  let input := trim data in
  if Js.includes input "code=" then
    match matchCode input with
    | Some code => commandText code
    | None => couldNotExtract
    end
  else pleasePaste.

End Script.

End SimpleAuth.

(** [trim] on the white space of ASCII: tab, line feed, vertical tab, form
    feed, carriage return, space. *)
Definition isSpace (c : ascii) : bool :=
  let n := nat_of_ascii c in
  (((9 <=? n) && (n <=? 13)) || (n =? 32))%nat.

Fixpoint trimStartAscii (s : string) : string :=
  match s with
  | String c s' => if isSpace c then trimStartAscii s' else s
  | EmptyString => EmptyString
  end.

Fixpoint trimEndAscii (s : string) : string :=
  match s with
  | String c s' =>
      match trimEndAscii s' with
      | EmptyString => if isSpace c then EmptyString
                       else String c EmptyString
      | t => String c t
      end
  | EmptyString => EmptyString
  end.

Definition trimAscii (s : string) : string :=
  trimEndAscii (trimStartAscii s).

(** [encodeURIComponent] on bytes: letters, digits and [-_.!~*'()] stay,
    every other byte becomes [%XX]. *)
Definition isUnreserved (c : ascii) : bool :=
  let n := nat_of_ascii c in
  (((48 <=? n) && (n <=? 57)) || ((65 <=? n) && (n <=? 90))
   || ((97 <=? n) && (n <=? 122))
   || existsb (Nat.eqb n) [45; 95; 46; 33; 126; 42; 39; 40; 41])%nat.

Definition hexDigit (n : nat) : ascii :=
  ascii_of_nat (if (n <? 10)%nat then 48 + n else 55 + n).

Fixpoint encodeURIComponentBytes (s : string) : string :=
  match s with
  | String c s' =>
      (if isUnreserved c then String c EmptyString
       else String "%"%char
              (String (hexDigit (nat_of_ascii c / 16))
                 (String (hexDigit (nat_of_ascii c mod 16)) EmptyString)))
      ++ encodeURIComponentBytes s'
  | EmptyString => EmptyString
  end.

(* ================================================================== *)
(** ** The remaining operations of spotify-client.ts

    [getDevices], [getCurrentlyPlaying] and [debugSpotifyConfig] send
    requests of their own.  Their programs are trees over the requests of
    the facade and these ([Call]); [lift] carries a program over the
    requests of the facade, such as the token check, into them. *)

Record Device : Type := mkDevice {
  device_id : option string;
  device_is_active : bool;
  device_is_private_session : bool;
  device_is_restricted : bool;
  device_name : string;
  device_type : string;
  device_volume_percent : option Z
}.

(** [response.body] of [getMyDevices]: [devices] may be absent. *)
Record DevicesBody : Type := mkDevicesBody {
  devices : option (list Device)
}.

(** [me.body]: [product] is absent for a token without user scopes. *)
Record User : Type := mkUser {
  user_id : string;
  user_product : option string
}.

(** [response.body.item]: a track has [artists] and [album], an episode
    has neither. *)
Record PlayingItem : Type := mkPlayingItem {
  playing_id : string;
  playing_name : string;
  playing_uri : string;
  playing_duration_ms : Z;
  playing_artists : option (list Artist);
  playing_album : option Album
}.

Record Playback : Type := mkPlayback {
  playback_item : option PlayingItem;
  playback_progress_ms : option Z;
  playback_is_playing : bool
}.

Inductive Call : Type :=
| Facade (r : Request)
| GetMe
| GetMyDevices
| GetMyCurrentPlayingTrack.

(** The bodies of [getMyDevices] and [getMyCurrentPlayingTrack] may be
    empty. *)
Definition CallBody (c : Call) : Type :=
  match c with
  | Facade r => Body r
  | GetMe => User
  | GetMyDevices => option DevicesBody
  | GetMyCurrentPlayingTrack => option Playback
  end.

Definition CallResponse (c : Call) : Type := (Js.Error + CallBody c)%type.

Inductive Proc (A : Type) : Type :=
| PRet (a : A)
| PThrow (e : Js.Error)
| PDateNow (k : Z -> Proc A)
| PGetState (k : TokenState -> Proc A)
| PPutState (s : TokenState) (k : Proc A)
| PAwait (c : Call) (k : CallResponse c -> Proc A).

Arguments PRet {A} a.
Arguments PThrow {A} e.
Arguments PDateNow {A} k.
Arguments PGetState {A} k.
Arguments PPutState {A} s k.
Arguments PAwait {A} c k.

Fixpoint pbind {A B : Type} (p : Proc A) (f : A -> Proc B) : Proc B :=
  match p with
  | PRet a => f a
  | PThrow e => PThrow e
  | PDateNow k => PDateNow (fun n => pbind (k n) f)
  | PGetState k => PGetState (fun s => pbind (k s) f)
  | PPutState s k => PPutState s (pbind k f)
  | PAwait c k => PAwait c (fun x => pbind (k x) f)
  end.

Fixpoint ptryCatch {A : Type} (p : Proc A) (h : Js.Error -> Proc A)
  : Proc A :=
  match p with
  | PRet a => PRet a
  | PThrow e => h e
  | PDateNow k => PDateNow (fun n => ptryCatch (k n) h)
  | PGetState k => PGetState (fun s => ptryCatch (k s) h)
  | PPutState s k => PPutState s (ptryCatch k h)
  | PAwait c k => PAwait c (fun x => ptryCatch (k x) h)
  end.

Definition pawait (c : Call) : Proc (CallBody c) :=
  PAwait c (fun x => match x with inl e => PThrow e | inr b => PRet b end).

(** A program of the facade, as a program over all the requests. *)
Fixpoint lift {A : Type} (p : Prog A) : Proc A :=
  match p with
  | Ret a => PRet a
  | Throw e => PThrow e
  | DateNow k => PDateNow (fun n => lift (k n))
  | GetState k => PGetState (fun s => lift (k s))
  | PutState s k => PPutState s (lift k)
  | Await r k => PAwait (Facade r) (fun x => lift (k x))
  end.

Record Service : Type := mkService {
  reading : nat -> Z;
  answer : forall c : Call, list Call -> CallResponse c
}.

Record Process : Type := mkProcess {
  pstate : TokenState;
  pticks : nat;
  calls : list Call
}.

Fixpoint exec {A : Type} (v : Service) (p : Proc A) (m : Process)
  : Outcome A * Process :=
  match p with
  | PRet a => (Returned a, m)
  | PThrow e => (Thrown e, m)
  | PDateNow k =>
      exec v (k (reading v (pticks m)))
           (mkProcess (pstate m) (S (pticks m)) (calls m))
  | PGetState k => exec v (k (pstate m)) m
  | PPutState s k => exec v k (mkProcess s (pticks m) (calls m))
  | PAwait c k =>
      exec v (k (answer v c (calls m)))
           (mkProcess (pstate m) (pticks m) (calls m ++ [c]))
  end.

(** The process after the calls [cs]. *)
Definition called (m : Process) (cs : list Call) : Process :=
  mkProcess (pstate m) (pticks m) (calls m ++ cs).

(** The world the facade sees in the service [v] after the calls [h], and
    the machine of the facade for a process that made the calls
    [h ++ map Facade t]. *)
Definition facadeWorld (v : Service) (h : list Call) : World :=
  mkWorld (reading v) (fun r t => answer v (Facade r) (h ++ map Facade t)).

Definition facadeMachine (m : Process) : Machine :=
  mkMachine (pstate m) (pticks m) [].

Declare Scope proc_scope.
Delimit Scope proc_scope with proc.
Notation "x <- p ;; q" := (pbind p (fun x => q))
  (at level 61, p at next level, right associativity) : proc_scope.
Notation "p ;; q" := (pbind p (fun _ => q))
  (at level 61, right associativity) : proc_scope.
Notation "'try' p 'catch' e => h" := (ptryCatch p (fun e => h))
  (at level 60, p at level 200, e name, h at level 200) : proc_scope.
Open Scope proc_scope.

Section Account.

Variable SPOTIFY_CLIENT_ID : option string.
Variable SPOTIFY_CLIENT_SECRET : option string.
Variable SPOTIFY_REDIRECT_URI : option string.
Variable SPOTIFY_REFRESH_TOKEN : option string.

(** The object [getDevices] serialises for each device. *)
Record DeviceSummary : Type := mkDeviceSummary {
  ds_id : option string;
  ds_name : string;
  ds_type : string;
  ds_is_active : bool;
  ds_volume_percent : option Z
}.

(** The objects [getCurrentlyPlaying] serialises: a track, or an episode
    (with [type: "episode"]). *)
Inductive PlayingSummary : Type :=
| PlayingTrack (id name artist album uri : string) (progress_ms : option Z)
               (duration_ms : Z) (is_playing : bool)
| PlayingEpisode (id name uri : string) (progress_ms : option Z)
                 (duration_ms : Z) (is_playing : bool).

(** [JSON.stringify(v, null, 2)] at the two types these operations
    serialise. *)
Variable stringify_devices : list DeviceSummary -> string.
Variable stringify_playing : PlayingSummary -> string.

Definition summarizeDevice (device : Device) : DeviceSummary :=
  mkDeviceSummary (device_id device) (device_name device)
                  (device_type device) (device_is_active device)
                  (device_volume_percent device).

(** [getDevices] *)
Definition getDevices : Proc (list TextContent) :=
  lift (ensureAccessToken SPOTIFY_REFRESH_TOKEN) ;;
  try
    (response <- pawait GetMyDevices ;;
     match response with
     | Some (mkDevicesBody (Some (device :: more))) =>
         PRet [mkText (stringify_devices
                         (map summarizeDevice (device :: more)))]
     | _ => PRet [mkText "No available Spotify devices found."]
     end)
  catch error =>
    PRet [mkText ("Error getting devices: " ++ Js.String_ error)].

Definition summarizePlaying (playback : Playback) (track : PlayingItem)
  : PlayingSummary :=
  match playing_artists track, playing_album track with
  | Some artists, Some album =>
      PlayingTrack (playing_id track) (playing_name track)
                   (Js.join ", " (map artist_name artists))
                   (album_name album) (playing_uri track)
                   (playback_progress_ms playback)
                   (playing_duration_ms track)
                   (playback_is_playing playback)
  | _, _ =>
      PlayingEpisode (playing_id track) (playing_name track)
                     (playing_uri track)
                     (playback_progress_ms playback)
                     (playing_duration_ms track)
                     (playback_is_playing playback)
  end.

(** [getCurrentlyPlaying] *)
Definition getCurrentlyPlaying : Proc (list TextContent) :=
  lift (ensureAccessToken SPOTIFY_REFRESH_TOKEN) ;;
  try
    (response <- pawait GetMyCurrentPlayingTrack ;;
     match response with
     | Some playback =>
         match playback_item playback with
         | Some track =>
             PRet [mkText (stringify_playing
                             (summarizePlaying playback track))]
         | None => PRet [mkText "No track currently playing."]
         end
     | None => PRet [mkText "No track currently playing."]
     end)
  catch error =>
    PRet [mkText ("Error getting currently playing track: "
                  ++ Js.String_ error)].

Definition setOrMissing (v : option string) : string :=
  if truthy v then "✅ Set" else "❌ Missing".

(** [`${product}`] for a property that may be absent. *)
Definition showProduct (product : option string) : string :=
  match product with Some p => p | None => "undefined" end.

Definition premiumStatusOf (me : User) : string :=
  match user_product me with
  | Some "premium" => "✅ Premium account"
  | product => "❌ Non-premium account (" ++ showProduct product ++ ")"
  end.

Definition activeDeviceOf (body : DevicesBody) : string :=
  match devices body with
  | Some (device :: more) =>
      let activeDevices :=
        map device_name (filter device_is_active (device :: more)) in
      match activeDevices with
      | _ :: _ => "✅ Active devices: " ++ Js.join ", " activeDevices
      | [] => "❌ No active devices found. Open Spotify on a device first."
      end
  | _ => "❌ No devices found. Open Spotify on at least one device."
  end.

Definition newline : string := String "010"%char EmptyString.

(** The report of [debugSpotifyConfig]. *)
Definition debugReport (tokenStatus premiumStatus activeDevice : string)
  : string :=
  Js.join newline
    [""; "=== Spotify MCP Configuration Debug ==="; "";
     "Environment Variables:";
     "- SPOTIFY_CLIENT_ID: " ++ setOrMissing SPOTIFY_CLIENT_ID;
     "- SPOTIFY_CLIENT_SECRET: " ++ setOrMissing SPOTIFY_CLIENT_SECRET;
     "- SPOTIFY_REDIRECT_URI: " ++ setOrMissing SPOTIFY_REDIRECT_URI;
     "- SPOTIFY_REFRESH_TOKEN: " ++ setOrMissing SPOTIFY_REFRESH_TOKEN;
     ""; "Authentication:";
     "- Token Status: " ++ tokenStatus;
     "- Premium Status: " ++ premiumStatus;
     "- Active Device: " ++ activeDevice;
     ""; "If any of these show errors, please check the following:";
     "1. For missing environment variables: Add them to your .env file and claude_desktop_config.json";
     "2. For token failures: Your refresh token may be expired. Generate a new one.";
     "3. For non-premium account: Playback control requires Spotify Premium";
     "4. For no active devices: Open Spotify on a device and play something first";
     ""].

(** What a read of a property of an empty body throws. *)
Definition typeError : Js.Error :=
  Js.mkError "TypeError" "Cannot read properties of undefined".

(** [debugSpotifyConfig].  The three status variables are the triple the
    outer [try] yields: its [catch] block is reached from the token check
    only, when the two later ones still have their initial values. *)
Definition debugSpotifyConfig : Proc (list TextContent) :=
  statuses <-
    (try
       (lift (ensureAccessToken SPOTIFY_REFRESH_TOKEN) ;;
        premiumStatus <-
          (try (me <- pawait GetMe ;; PRet (premiumStatusOf me))
           catch userError => PRet "❌ Failed to verify premium status") ;;
        activeDevice <-
          (try
             (response <- pawait GetMyDevices ;;
              match response with
              | Some body => PRet (activeDeviceOf body)
              | None => PThrow typeError
              end)
           catch deviceError =>
             PRet "❌ Failed to check devices - likely missing permissions") ;;
        PRet ("✅ Successfully obtained access token",
              premiumStatus, activeDevice))
     catch error =>
       PRet ("❌ Failed to get access token: " ++ Js.String_ error,
             "❓ Unknown", "❓ Not checked")) ;;
  let '(tokenStatus, premiumStatus, activeDevice) := statuses in
  PRet [mkText (debugReport tokenStatus premiumStatus activeDevice)].

End Account.

Close Scope proc_scope.

Module Desk.

Definition phone : Device :=
  mkDevice (Some "d1") false false false "Phone" "Smartphone" (Some 40).

Definition speaker : Device :=
  mkDevice (Some "d2") true false false "Kitchen" "Speaker" (Some 70).

(** A service whose clock always reads 1000000, whose grants are answered
    by [grant], whose user lookup is answered by [me] and whose device
    listing by [listed]; a track is playing. *)
Definition service (grant : Js.Error + Grant) (me : Js.Error + User)
           (listed : Js.Error + option DevicesBody) : Service :=
  mkService
    (fun _ => 1000000)
    (fun c h =>
       match c return CallResponse c with
       | Facade r => remote (Sample.world 1000000 grant [] (inr tt) []) r []
       | GetMe => me
       | GetMyDevices => listed
       | GetMyCurrentPlayingTrack =>
           inr (Some (mkPlayback
                        (Some (mkPlayingItem
                                 "4u7EnebtmKWzUH433cf5Qv" "Bohemian Rhapsody"
                                 "spotify:track:4u7EnebtmKWzUH433cf5Qv" 354320
                                 (Some [mkArtist "Queen"]) None))
                        (Some 1000) true))
       end).

Definition start : Process := mkProcess initialState 0 [].

Definition forbidden : Js.Error :=
  Js.mkError "WebapiRegularError" "Insufficient client scope".

End Desk.


(** Proves [Forall P rs] for an explicit list [rs], element by element. *)
Ltac each_request :=
  repeat (apply Forall_cons; [auto 6|]); apply Forall_nil.

(* ================================================================== *)
(** ** General facts about running programs *)

Lemma run_bind {A B : Type} (w : World) (p : Prog A) (f : A -> Prog B) :
  forall m,
    run w (bind p f) m =
    match run w p m with
    | (Returned a, m') => run w (f a) m'
    | (Thrown e, m') => (Thrown e, m')
    end.
Proof.
  induction p as [a|e|k IH|k IH|s k IH|r k IH]; intros m; simpl; auto.
Qed.

Lemma run_tryCatch {A : Type} (w : World) (p : Prog A)
      (h : Js.Error -> Prog A) :
  forall m,
    run w (tryCatch p h) m =
    match run w p m with
    | (Returned a, m') => (Returned a, m')
    | (Thrown e, m') => run w (h e) m'
    end.
Proof.
  induction p as [a|e|k IH|k IH|s k IH|r k IH]; intros m; simpl; auto.
Qed.

(** A run only appends to the trace. *)
Lemma run_appends {A : Type} (w : World) (p : Prog A) :
  forall m, exists l, trace (snd (run w p m)) = (trace m ++ l)%list.
Proof.
  induction p as [a|e|k IH|k IH|s k IH|r k IH]; intros m; simpl.
  - exists []. now rewrite app_nil_r.
  - exists []. now rewrite app_nil_r.
  - destruct (IH (clock w (ticks m))
                 (mkMachine (state m) (S (ticks m)) (trace m))) as [l Hl].
    exists l. exact Hl.
  - apply IH.
  - destruct (IH (mkMachine s (ticks m) (trace m))) as [l Hl].
    exists l. exact Hl.
  - destruct (IH (remote w r (trace m))
                 (mkMachine (state m) (ticks m) (trace m ++ [r]))) as [l Hl].
    exists (r :: l). rewrite Hl. simpl. now rewrite <- app_assoc.
Qed.

Lemma skipn_length_app {A : Type} (l1 l2 : list A) :
  skipn (List.length l1) (l1 ++ l2) = l2.
Proof.
  induction l1 as [|x l1 IH]; simpl; auto.
Qed.

Lemma run_trace {A : Type} (w : World) (p : Prog A) (m : Machine) :
  trace (snd (run w p m)) = (trace m ++ issued w p m)%list.
Proof.
  unfold issued. destruct (run_appends w p m) as [l Hl].
  rewrite Hl at 1. now rewrite Hl, skipn_length_app.
Qed.

(** [issued] from the trace of the final machine. *)
Lemma issued_of_trace {A : Type} (w : World) (p : Prog A) (m : Machine)
      (l : list Request) :
  trace (snd (run w p m)) = (trace m ++ l)%list -> issued w p m = l.
Proof.
  intros H. unfold issued. rewrite H. apply skipn_length_app.
Qed.

(* ================================================================== *)
(** ** The token lifecycle manager *)

Section Lifecycle.

Variable env : option string.
Variable w : World.
Variable m : Machine.

Let now : Z := clock w (ticks m).

(** The three ways a call can go. *)
Lemma ensureAccessToken_fresh :
  now < tokenExpirationTime (state m) - 60000 ->
  run w (ensureAccessToken env) m =
  (Returned tt, mkMachine (state m) (S (ticks m)) (trace m)).
Proof.
  intros H. unfold ensureAccessToken. simpl. fold now.
  destruct (Z.geb_spec now (tokenExpirationTime (state m) - 60000)).
  - lia.
  - reflexivity.
Qed.

Lemma ensureAccessToken_granted (grant : Grant) :
  now >= tokenExpirationTime (state m) - 60000 ->
  grantAnswer w env (trace m) = inr grant ->
  run w (ensureAccessToken env) m =
  (Returned tt,
   mkMachine (mkTokenState (Some (access_token grant))
                           (now + expires_in grant * 1000 - 60000))
             (S (ticks m)) (trace m ++ [grantFlow env])).
Proof.
  intros H G. unfold ensureAccessToken, grantAnswer, grantFlow in *.
  simpl. fold now.
  destruct (Z.geb_spec now (tokenExpirationTime (state m) - 60000));
    [|lia].
  destruct (truthy env); simpl; rewrite G; reflexivity.
Qed.

Lemma ensureAccessToken_rejected (err : Js.Error) :
  now >= tokenExpirationTime (state m) - 60000 ->
  grantAnswer w env (trace m) = inl err ->
  run w (ensureAccessToken env) m =
  (Thrown (Js.newError "Failed to authenticate with Spotify"),
   mkMachine (state m) (S (ticks m)) (trace m ++ [grantFlow env])).
Proof.
  intros H G. unfold ensureAccessToken, grantAnswer, grantFlow in *.
  simpl. fold now.
  destruct (Z.geb_spec now (tokenExpirationTime (state m) - 60000));
    [|lia].
  destruct (truthy env); simpl; rewrite G; reflexivity.
Qed.

(** Whatever happens, the requests of a call are grant requests, and
    at most one. *)
Lemma ensureAccessToken_issued :
  issued w (ensureAccessToken env) m = [] \/
  issued w (ensureAccessToken env) m = [grantFlow env].
Proof.
  destruct (Z_lt_ge_dec now (tokenExpirationTime (state m) - 60000))
    as [F|S].
  - left. apply issued_of_trace.
    rewrite (ensureAccessToken_fresh F). simpl. now rewrite app_nil_r.
  - right. apply issued_of_trace.
    destruct (grantAnswer w env (trace m)) as [err|grant] eqn:G.
    + now rewrite (ensureAccessToken_rejected S G).
    + now rewrite (ensureAccessToken_granted S G).
Qed.

(** [tracked] is kept by every call. *)
Lemma ensureAccessToken_tracked :
  tracked (state m) ->
  tracked (state (snd (run w (ensureAccessToken env) m))).
Proof.
  intros T.
  destruct (Z_lt_ge_dec now (tokenExpirationTime (state m) - 60000))
    as [F|S].
  - now rewrite (ensureAccessToken_fresh F).
  - destruct (grantAnswer w env (trace m)) as [err|grant] eqn:G.
    + now rewrite (ensureAccessToken_rejected S G).
    + rewrite (ensureAccessToken_granted S G). unfold tracked. simpl.
      discriminate.
Qed.

End Lifecycle.

Lemma initialState_tracked : tracked initialState.
Proof. unfold tracked. reflexivity. Qed.




(* ================================================================== *)
(** ** Facts about strings *)

Lemma startsWith_app (p x : string) : Js.startsWith (p ++ x) p = true.
Proof.
  unfold Js.startsWith. induction p as [|c p IH]; simpl.
  - now destruct x.
  - destruct (ascii_dec c c) as [_|N]; [exact IH | now elim N].
Qed.

Lemma startsWith_empty (s : string) : Js.startsWith s "" = true.
Proof. now destruct s. Qed.

Lemma includes_empty (s : string) : Js.includes s "" = true.
Proof. destruct s; reflexivity. Qed.

Lemma includes_app_r (p s sub : string) :
  Js.includes s sub = true -> Js.includes (p ++ s) sub = true.
Proof.
  intros H. induction p as [|c p IH]; simpl.
  - exact H.
  - rewrite IH. apply orb_true_r.
Qed.

Lemma includes_nil (sub : string) :
  Js.includes "" sub = true -> sub = "".
Proof.
  destruct sub; simpl; [reflexivity | discriminate].
Qed.

(** A substring of the message of an error is a substring of the text
    [String(error)]. *)
Lemma includes_message (e : Js.Error) (sub : string) :
  Js.includes (Js.message e) sub = true ->
  Js.includes (Js.String_ e) sub = true.
Proof.
  intros H. unfold Js.String_.
  destruct (String.eqb (Js.name e) ""); [exact H|].
  destruct (String.eqb_spec (Js.message e) "") as [E|_].
  - rewrite E in H. rewrite (includes_nil _ H). apply includes_empty.
  - apply includes_app_r. apply (includes_app_r ": "). exact H.
Qed.

Lemma toUri_prefixed (prefix x : string) :
  toUri prefix (prefix ++ x) = prefix ++ x.
Proof. unfold toUri. now rewrite startsWith_app. Qed.

Lemma toUri_idempotent (prefix x : string) :
  toUri prefix (toUri prefix x) = toUri prefix x.
Proof.
  destruct (Js.startsWith x prefix) eqn:E.
  - unfold toUri. now rewrite !E.
  - assert (U : toUri prefix x = prefix ++ x) by (unfold toUri; now rewrite E).
    rewrite U. apply toUri_prefixed.
Qed.

(* ================================================================== *)
(** ** The facade, operation by operation *)

Section Facade.

Variable env : option string.
Variable json : JSON.
Variable w : World.

(** The trace after the token check. *)
Lemma ensureAccessToken_trace (m m1 : Machine) (o : Outcome unit) :
  run w (ensureAccessToken env) m = (o, m1) ->
  trace m1 = (trace m ++ issued w (ensureAccessToken env) m)%list.
Proof.
  intros E. pose proof (run_trace w (ensureAccessToken env) m) as T.
  now rewrite E in T.
Qed.

Lemma playTrack_run (trackId : string) (m : Machine) :
  run w (playTrack env trackId) m =
  match run w (ensureAccessToken env) m with
  | (Thrown e, m1) => (Thrown e, m1)
  | (Returned _, m1) =>
      let r := Play (Uris [trackUri trackId]) in
      (Returned
         match remote w r (trace m1) with
         | inl error => playTrack_catch error
         | inr _ =>
             [mkText ("Now playing track with URI: " ++ trackUri trackId)]
         end,
       sent m1 [r])
  end.
Proof.
  unfold playTrack. rewrite run_bind.
  destruct (run w (ensureAccessToken env) m) as [[u|e] m1]; auto.
  rewrite run_tryCatch. simpl.
  destruct (remote w (Play (Uris [trackUri trackId])) (trace m1));
    reflexivity.
Qed.

Lemma playPlaylist_run (playlistId : string) (shuffle : option bool)
      (m : Machine) :
  run w (playPlaylist env playlistId shuffle) m =
  match run w (ensureAccessToken env) m with
  | (Thrown e, m1) => (Thrown e, m1)
  | (Returned _, m1) =>
      let b := defaultTo false shuffle in
      let r1 := GetPlaylist playlistId in
      let r2 := SetShuffle b in
      let r3 := Play (ContextUri (playlistUri playlistId)) in
      match remote w r1 (trace m1) with
      | inl error => (Returned (playPlaylist_catch error), sent m1 [r1])
      | inr playlist =>
          match remote w r2 (trace m1 ++ [r1]) with
          | inl error =>
              (Returned (playPlaylist_catch error), sent m1 [r1; r2])
          | inr _ =>
              match remote w r3 (trace m1 ++ [r1; r2]) with
              | inl error =>
                  (Returned (playPlaylist_catch error),
                   sent m1 [r1; r2; r3])
              | inr _ =>
                  (Returned
                     [mkText ("Now playing playlist " ++ Js.dq
                              ++ playlist_name playlist ++ Js.dq ++ " "
                              ++ (if b then "on shuffle mode"
                                  else "in order")
                              ++ ".")],
                   sent m1 [r1; r2; r3])
              end
          end
      end
  end.
Proof.
  unfold playPlaylist. rewrite run_bind.
  destruct (run w (ensureAccessToken env) m) as [[u|e] m1]; auto.
  rewrite run_tryCatch. unfold sent. simpl.
  destruct (remote w (GetPlaylist playlistId) (trace m1)); simpl; auto.
  destruct (remote w (SetShuffle (defaultTo false shuffle))
                   (trace m1 ++ [GetPlaylist playlistId])); simpl;
    rewrite <- ?app_assoc; simpl; auto.
  destruct (remote w (Play (ContextUri (playlistUri playlistId)))
                   (trace m1 ++
                    [GetPlaylist playlistId;
                     SetShuffle (defaultTo false shuffle)])); simpl;
    rewrite <- ?app_assoc; simpl; auto.
Qed.

Lemma getPlaylistTracks_trace (playlistId : string) (limit : option Z)
      (m : Machine) :
  let m1 := snd (run w (ensureAccessToken env) m) in
  let r1 := GetPlaylist playlistId in
  let r2 := GetPlaylistTracks playlistId (defaultTo 50 limit) in
  let tr := trace (snd (run w (getPlaylistTracks env json playlistId limit)
                            m)) in
  tr = trace m1 \/ tr = (trace m1 ++ [r1])%list
  \/ tr = (trace m1 ++ [r1; r2])%list.
Proof.
  unfold getPlaylistTracks. rewrite run_bind.
  destruct (run w (ensureAccessToken env) m) as [[u|e] m1]; simpl; auto.
  rewrite run_tryCatch. simpl.
  destruct (remote w (GetPlaylist playlistId) (trace m1)); simpl; auto.
  destruct (remote w (GetPlaylistTracks playlistId (defaultTo 50 limit))
                   (trace m1 ++ [GetPlaylist playlistId])) as [err|body];
    simpl; rewrite <- ?app_assoc; simpl; auto.
  destruct (ptb_items body); simpl; rewrite <- ?app_assoc; simpl; auto.
Qed.

Lemma searchTracks_run (query : string) (limit : option Z) (m : Machine) :
  run w (searchTracks env json query limit) m =
  match run w (ensureAccessToken env) m with
  | (Thrown e, m1) => (Thrown e, m1)
  | (Returned _, m1) =>
      let r := SearchTracks query (defaultTo 5 limit) in
      (Returned
         match remote w r (trace m1) with
         | inl error =>
             [mkText ("Error searching for tracks: " ++ Js.String_ error)]
         | inr response =>
             match tracks_items response with
             | Some (item :: items) =>
                 map (fun track =>
                        mkText (stringify_track json (summarizeTrack track)))
                     (item :: items)
             | _ => [mkText "No tracks found matching your query."]
             end
         end,
       sent m1 [r])
  end.
Proof.
  unfold searchTracks. rewrite run_bind.
  destruct (run w (ensureAccessToken env) m) as [[u|e] m1]; auto.
  rewrite run_tryCatch. simpl.
  destruct (remote w (SearchTracks query (defaultTo 5 limit)) (trace m1))
    as [e|b]; [reflexivity|].
  simpl. destruct (tracks_items b) as [[|t ts]|]; reflexivity.
Qed.

Lemma getUserPlaylists_run (limit : option Z) (m : Machine) :
  run w (getUserPlaylists env json limit) m =
  match run w (ensureAccessToken env) m with
  | (Thrown e, m1) => (Thrown e, m1)
  | (Returned _, m1) =>
      let r := GetUserPlaylists (defaultTo 20 limit) in
      (Returned
         match remote w r (trace m1) with
         | inl error =>
             [mkText ("Error getting user playlists: "
                      ++ Js.String_ error)]
         | inr (item :: items) =>
             [mkText (stringify_playlists json
                        (map summarizePlaylist (item :: items)))]
         | inr [] => [mkText "No playlists found."]
         end,
       sent m1 [r])
  end.
Proof.
  unfold getUserPlaylists. rewrite run_bind.
  destruct (run w (ensureAccessToken env) m) as [[u|e] m1]; auto.
  rewrite run_tryCatch. simpl.
  destruct (remote w (GetUserPlaylists (defaultTo 20 limit)) (trace m1))
    as [e|[|p ps]]; reflexivity.
Qed.

End Facade.

(* ================================================================== *)
(** ** Properties of the token lifecycle manager *)

(** C1. A call to [ensureAccessToken] made at a time [now] with
    [now < tokenExpirationTime - 60000] returns without issuing any grant
    request (indeed any request), and leaves the stored access token and
    [tokenExpirationTime] unchanged. *)
Theorem ensureAccessToken_no_redundant_refresh
        (env : option string) (w : World) (m : Machine) :
  clock w (ticks m) < tokenExpirationTime (state m) - 60000 ->
  fst (run w (ensureAccessToken env) m) = Returned tt /\
  issued w (ensureAccessToken env) m = [] /\
  accessToken (state (snd (run w (ensureAccessToken env) m)))
  = accessToken (state m) /\
  tokenExpirationTime (state (snd (run w (ensureAccessToken env) m)))
  = tokenExpirationTime (state m).
Proof.
  intros F. repeat split.
  - now rewrite (ensureAccessToken_fresh env w m F).
  - apply issued_of_trace. rewrite (ensureAccessToken_fresh env w m F).
    simpl. now rewrite app_nil_r.
  - now rewrite (ensureAccessToken_fresh env w m F).
  - now rewrite (ensureAccessToken_fresh env w m F).
Qed.

(** An instance of C1: a token tracked until 5000000, the clock at
    1000000. *)
Lemma ensureAccessToken_no_redundant_refresh_witness :
  fst (run Sample.calm (ensureAccessToken (Some "AQDr"))
           (Sample.holding 5000000)) = Returned tt /\
  issued Sample.calm (ensureAccessToken (Some "AQDr"))
         (Sample.holding 5000000) = [] /\
  accessToken (state (snd (run Sample.calm (ensureAccessToken (Some "AQDr"))
                               (Sample.holding 5000000))))
  = Some "BQDa" /\
  tokenExpirationTime
    (state (snd (run Sample.calm (ensureAccessToken (Some "AQDr"))
                     (Sample.holding 5000000))))
  = 5000000.
Proof.
  apply (ensureAccessToken_no_redundant_refresh
           (Some "AQDr") Sample.calm (Sample.holding 5000000)).
  simpl. lia.
Defined.

(** C2. A call made at a time [now] with
    [now >= tokenExpirationTime - 60000] issues exactly one request, a
    grant request: the refresh-token flow when a refresh credential is
    configured, the client-credentials flow otherwise; and when the grant
    succeeds with lifetime [expires_in] seconds the call returns with
    [tokenExpirationTime = now + expires_in * 1000 - 60000] and the granted
    token stored. *)
Theorem ensureAccessToken_one_grant
        (env : option string) (w : World) (m : Machine) :
  clock w (ticks m) >= tokenExpirationTime (state m) - 60000 ->
  issued w (ensureAccessToken env) m
  = [if truthy env then RefreshAccessToken else ClientCredentialsGrant] /\
  forall grant : Grant,
    grantAnswer w env (trace m) = inr grant ->
    fst (run w (ensureAccessToken env) m) = Returned tt /\
    tokenExpirationTime (state (snd (run w (ensureAccessToken env) m)))
    = clock w (ticks m) + expires_in grant * 1000 - 60000 /\
    accessToken (state (snd (run w (ensureAccessToken env) m)))
    = Some (access_token grant).
Proof.
  intros S. split.
  - apply issued_of_trace.
    destruct (grantAnswer w env (trace m)) as [err|grant] eqn:G.
    + now rewrite (ensureAccessToken_rejected env w m S G).
    + now rewrite (ensureAccessToken_granted env w m S G).
  - intros grant G.
    now rewrite (ensureAccessToken_granted env w m S G).
Qed.

(** An instance of C2: first use after start-up, no refresh credential. *)
Lemma ensureAccessToken_one_grant_witness :
  issued Sample.calm (ensureAccessToken None) Sample.start
  = [ClientCredentialsGrant] /\
  tokenExpirationTime
    (state (snd (run Sample.calm (ensureAccessToken None) Sample.start)))
  = 1000000 + 3600 * 1000 - 60000.
Proof.
  assert (S : clock Sample.calm (ticks Sample.start)
              >= tokenExpirationTime (state Sample.start) - 60000).
  { simpl. lia. }
  destruct (ensureAccessToken_one_grant None Sample.calm Sample.start S)
    as [I G].
  split.
  - exact I.
  - destruct (G (mkGrant "BQDb" 3600) eq_refl) as [_ [T _]]. exact T.
Defined.

(** C3. With a refresh credential configured, a failing refresh-token
    grant makes [ensureAccessToken] throw an authentication error, the
    refresh request being the only request of the call; and with a refresh
    credential configured no call ever issues the client-credentials
    grant. *)
Theorem ensureAccessToken_no_fallback
        (env : option string) (w : World) (m : Machine) (err : Js.Error) :
  truthy env = true ->
  clock w (ticks m) >= tokenExpirationTime (state m) - 60000 ->
  remote w RefreshAccessToken (trace m) = inl err ->
  fst (run w (ensureAccessToken env) m)
  = Thrown (Js.newError "Failed to authenticate with Spotify") /\
  issued w (ensureAccessToken env) m = [RefreshAccessToken] /\
  forall (w' : World) (m' : Machine),
    ~ In ClientCredentialsGrant (issued w' (ensureAccessToken env) m').
Proof.
  intros C S R.
  assert (G : grantAnswer w env (trace m) = inl err)
    by (unfold grantAnswer; now rewrite C).
  repeat split.
  - now rewrite (ensureAccessToken_rejected env w m S G).
  - apply issued_of_trace.
    rewrite (ensureAccessToken_rejected env w m S G).
    unfold grantFlow. now rewrite C.
  - intros w' m' I.
    destruct (ensureAccessToken_issued env w' m') as [E|E];
      rewrite E in I; unfold grantFlow in I; try rewrite C in I;
      simpl in I.
    + exact I.
    + destruct I as [I|I]; [discriminate I | exact I].
Qed.

(** An instance of C3: the refresh credential is rejected. *)
Lemma ensureAccessToken_no_fallback_witness :
  fst (run Sample.rejecting (ensureAccessToken (Some "AQDr")) Sample.start)
  = Thrown (Js.newError "Failed to authenticate with Spotify") /\
  issued Sample.rejecting (ensureAccessToken (Some "AQDr")) Sample.start
  = [RefreshAccessToken].
Proof.
  assert (S : clock Sample.rejecting (ticks Sample.start)
              >= tokenExpirationTime (state Sample.start) - 60000).
  { simpl. lia. }
  destruct (ensureAccessToken_no_fallback
              (Some "AQDr") Sample.rejecting Sample.start eq_refl S eq_refl)
    as [T [I _]].
  split; assumption.
Defined.




(* ================================================================== *)
(** ** Identifier normalization *)

(** C6. The normalization of [playTrack] ([trackUri]) and of
    [playPlaylist] ([playlistUri]) is idempotent, and returns unchanged
    every input that begins with the URI prefix of its resource type. *)
Theorem normalization_idempotent (s : string) :
  trackUri (trackUri s) = trackUri s /\
  playlistUri (playlistUri s) = playlistUri s /\
  trackUri ("spotify:track:" ++ s) = "spotify:track:" ++ s /\
  playlistUri ("spotify:playlist:" ++ s) = "spotify:playlist:" ++ s.
Proof.
  repeat split.
  - apply toUri_idempotent.
  - apply toUri_idempotent.
  - apply (toUri_prefixed "spotify:track:").
  - apply (toUri_prefixed "spotify:playlist:").
Qed.

(* ================================================================== *)
(** ** Requests and error texts of the facade *)

Lemma startsWith_refl (s : string) : Js.startsWith s s = true.
Proof.
  unfold Js.startsWith. induction s as [|c s IH]; simpl; auto.
  destruct (ascii_dec c c) as [_|N]; [exact IH | now elim N].
Qed.

Lemma includes_refl (s : string) : Js.includes s s = true.
Proof.
  destruct s as [|c s]; [reflexivity|].
  change (Js.includes (String c s) (String c s))
    with (Js.startsWith (String c s) (String c s) || Js.includes s (String c s)).
  now rewrite startsWith_refl.
Qed.

Lemma playTrack_catch_byPrecedence (error : Js.Error) :
  exists t, playTrack_catch error = [mkText t] /\
            byPrecedence "Error playing track: " error t.
Proof.
  unfold playTrack_catch, byPrecedence.
  destruct (Js.includes (Js.String_ error) "NOT_PREMIUM");
    [|destruct (Js.includes (Js.String_ error) "PERMISSION");
      [|destruct (Js.includes (Js.String_ error) "NO_ACTIVE_DEVICE")]];
    eexists; (split; [reflexivity|]); repeat split;
    intros; try discriminate; try reflexivity.
  apply includes_app_r, includes_refl.
Qed.

Lemma playPlaylist_catch_byPrecedence (error : Js.Error) :
  exists t, playPlaylist_catch error = [mkText t] /\
            byPrecedence "Error playing playlist: " error t.
Proof.
  unfold playPlaylist_catch, byPrecedence.
  destruct (Js.includes (Js.String_ error) "NOT_PREMIUM");
    [|destruct (Js.includes (Js.String_ error) "PERMISSION");
      [|destruct (Js.includes (Js.String_ error) "NO_ACTIVE_DEVICE")]];
    eexists; (split; [reflexivity|]); repeat split;
    intros; try discriminate; try reflexivity.
  apply includes_app_r, includes_refl.
Qed.

(** No text of the [catch] block of [playPlaylist] reads as a success. *)
Lemma playPlaylist_catch_not_success (error : Js.Error) (t : string) :
  playPlaylist_catch error = [mkText t] ->
  Js.startsWith t "Now playing playlist " = false.
Proof.
  unfold playPlaylist_catch.
  destruct (Js.includes (Js.String_ error) "NOT_PREMIUM");
    [|destruct (Js.includes (Js.String_ error) "PERMISSION");
      [|destruct (Js.includes (Js.String_ error) "NO_ACTIVE_DEVICE")]];
    intros E; inversion E; reflexivity.
Qed.

Section Requests.

Variable env : option string.
Variable w : World.
Variable m : Machine.

Lemma ensureAccessToken_grants :
  Forall (fun r => isGrant r = true) (issued w (ensureAccessToken env) m).
Proof.
  destruct (ensureAccessToken_issued env w m) as [E|E]; rewrite E.
  - constructor.
  - constructor; [|constructor]. unfold grantFlow.
    now destruct (truthy env).
Qed.

(** The requests of a program that ends in the machine [sent m1 rs],
    [m1] being the machine after the token check. *)
Lemma issued_after_check {A : Type} (p : Prog A) (rs : list Request) :
  trace (snd (run w p m))
  = (trace (snd (run w (ensureAccessToken env) m)) ++ rs)%list ->
  issued w p m = (issued w (ensureAccessToken env) m ++ rs)%list.
Proof.
  intros E. apply issued_of_trace. rewrite E.
  rewrite (run_trace w (ensureAccessToken env) m).
  now rewrite app_assoc.
Qed.

Lemma playTrack_issued (trackId : string) :
  issued w (playTrack env trackId) m
  = issued w (ensureAccessToken env) m \/
  issued w (playTrack env trackId) m
  = (issued w (ensureAccessToken env) m
     ++ [Play (Uris [trackUri trackId])])%list.
Proof.
  destruct (run w (ensureAccessToken env) m) as [[u|e] m1] eqn:E.
  - right. apply issued_after_check.
    rewrite playTrack_run, E. reflexivity.
  - left. rewrite <- (app_nil_r (issued w (ensureAccessToken env) m)).
    apply issued_after_check.
    rewrite playTrack_run, E. simpl. now rewrite app_nil_r.
Qed.

Lemma playPlaylist_issued (playlistId : string) (shuffle : option bool) :
  exists rs,
    issued w (playPlaylist env playlistId shuffle) m
    = (issued w (ensureAccessToken env) m ++ rs)%list /\
    (rs = [] \/ rs = [GetPlaylist playlistId]
     \/ rs = [GetPlaylist playlistId; SetShuffle (defaultTo false shuffle)]
     \/ rs = [GetPlaylist playlistId; SetShuffle (defaultTo false shuffle);
              Play (ContextUri (playlistUri playlistId))]).
Proof.
  pose proof (playPlaylist_run env w playlistId shuffle m) as R.
  destruct (run w (ensureAccessToken env) m) as [[u|e] m1] eqn:E.
  - cbv zeta in R.
    destruct (remote w (GetPlaylist playlistId) (trace m1)).
    { eexists. split; [apply issued_after_check; rewrite R, E|];
        [reflexivity | auto]. }
    destruct (remote w (SetShuffle (defaultTo false shuffle))
                     (trace m1 ++ [GetPlaylist playlistId])).
    { eexists. split; [apply issued_after_check; rewrite R, E|];
        [reflexivity | auto]. }
    destruct (remote w (Play (ContextUri (playlistUri playlistId)))
                     (trace m1 ++ [GetPlaylist playlistId;
                                   SetShuffle (defaultTo false shuffle)]));
      (eexists; split; [apply issued_after_check; rewrite R, E|];
       [reflexivity | auto 6]).
  - exists []. split; [|auto].
    apply issued_after_check. rewrite R, E. simpl. now rewrite app_nil_r.
Qed.

Lemma getPlaylistTracks_issued (json : JSON) (playlistId : string)
      (limit : option Z) :
  exists rs,
    issued w (getPlaylistTracks env json playlistId limit) m
    = (issued w (ensureAccessToken env) m ++ rs)%list /\
    (rs = [] \/ rs = [GetPlaylist playlistId]
     \/ rs = [GetPlaylist playlistId;
              GetPlaylistTracks playlistId (defaultTo 50 limit)]).
Proof.
  destruct (getPlaylistTracks_trace env json w playlistId limit m)
    as [T|[T|T]].
  - exists []. split; [|auto]. apply issued_after_check.
    now rewrite app_nil_r.
  - eexists. split; [apply issued_after_check; exact T|auto].
  - eexists. split; [apply issued_after_check; exact T|auto].
Qed.

End Requests.

(* ================================================================== *)
(** ** Properties of the facade *)

(** C5 as stated fails: [getPlaylistTracks], given a bare playlist id,
    sends its requests with the bare id, not with the URI. *)
Lemma getPlaylistTracks_sends_bare_id :
  ~ (forall (env : option string) (json : JSON) (w : World) (m : Machine)
            (trackId playlistId : string) (limit : option Z)
            (shuffle : option bool),
        carryOnly (trackUri trackId) (issued w (playTrack env trackId) m) /\
        carryOnly (playlistUri playlistId)
                  (issued w (getPlaylistTracks env json playlistId limit) m) /\
        carryOnly (playlistUri playlistId)
                  (issued w (playPlaylist env playlistId shuffle) m)).
Proof.
  intros H.
  destruct (H (Some "AQDr") JsonText.json Sample.calm
              (Sample.holding 5000000)
              "4u7EnebtmKWzUH433cf5Qv" "37i9dQZF1DX9wC1KY45plY" None None)
    as [_ [G _]].
  unfold carryOnly in G. vm_compute in G.
  inversion G as [|r rs First Rest]. subst.
  specialize (First _ eq_refl). discriminate First.
Qed.

(** C5, amended. [playTrack] and [playPlaylist] send their play request
    with the argument normalized to the URI form; the playlist lookups
    ([getPlaylist] in [playPlaylist], [getPlaylist] and [getPlaylistTracks]
    in [getPlaylistTracks]) are sent with the argument as it was given.
    These, the shuffle request and the grant request of the token check are
    all the requests of the three operations. *)
Theorem identifier_in_requests
        (env : option string) (json : JSON) (w : World) (m : Machine)
        (trackId playlistId : string) (limit : option Z)
        (shuffle : option bool) :
  Forall (fun r => isGrant r = true \/ r = Play (Uris [trackUri trackId]))
         (issued w (playTrack env trackId) m) /\
  Forall (fun r => isGrant r = true \/ r = GetPlaylist playlistId
                   \/ r = SetShuffle (defaultTo false shuffle)
                   \/ r = Play (ContextUri (playlistUri playlistId)))
         (issued w (playPlaylist env playlistId shuffle) m) /\
  Forall (fun r => isGrant r = true \/ r = GetPlaylist playlistId
                   \/ r = GetPlaylistTracks playlistId (defaultTo 50 limit))
         (issued w (getPlaylistTracks env json playlistId limit) m).
Proof.
  pose proof (ensureAccessToken_grants env w m) as G.
  assert (W : forall P : Request -> Prop,
             (forall r, isGrant r = true -> P r) ->
             Forall P (issued w (ensureAccessToken env) m)).
  { intros P HP. eapply Forall_impl; [exact HP | exact G]. }
  repeat split.
  - destruct (playTrack_issued env w m trackId) as [E|E]; rewrite E.
    + apply W. auto.
    + apply Forall_app. split; [apply W; auto|]. each_request.
  - destruct (playPlaylist_issued env w m playlistId shuffle)
      as [rs [E C]].
    rewrite E. apply Forall_app. split; [apply W; auto|].
    destruct C as [C|[C|[C|C]]]; subst rs; each_request.
  - destruct (getPlaylistTracks_issued env w m json playlistId limit)
      as [rs [E C]].
    rewrite E. apply Forall_app. split; [apply W; auto|].
    destruct C as [C|[C|C]]; subst rs; each_request.
Qed.

(** C8 as stated fails: a successful [playPlaylist] with a shuffle flag
    sends the shuffle request between the playlist lookup and the play
    request. *)
Lemma playPlaylist_sends_shuffle :
  ~ (forall (env : option string) (w : World) (m : Machine)
            (playlistId : string) (shuffle : option bool) (t : string),
        fst (run w (playPlaylist env playlistId shuffle) m)
        = Returned [mkText t] ->
        Js.startsWith t "Now playing playlist " = true ->
        filter (fun r => negb (isGrant r))
               (issued w (playPlaylist env playlistId shuffle) m)
        = [GetPlaylist playlistId;
           Play (ContextUri (playlistUri playlistId))]).
Proof.
  intros H.
  specialize (H (Some "AQDr") Sample.calm (Sample.holding 5000000)
                "37i9dQZF1DX9wC1KY45plY" (Some true) _ eq_refl eq_refl).
  vm_compute in H. discriminate H.
Qed.

(** C8, amended. A successful [playPlaylist] that is given a shuffle flag
    sends, after the requests of the token check, exactly three requests:
    the playlist lookup, the shuffle request with that flag, then the play
    request. *)
Theorem playPlaylist_requests
        (env : option string) (w : World) (m : Machine)
        (playlistId : string) (shuffle : bool) (t : string) :
  fst (run w (playPlaylist env playlistId (Some shuffle)) m)
  = Returned [mkText t] ->
  Js.startsWith t "Now playing playlist " = true ->
  issued w (playPlaylist env playlistId (Some shuffle)) m
  = (issued w (ensureAccessToken env) m
     ++ [GetPlaylist playlistId;
         SetShuffle shuffle;
         Play (ContextUri (playlistUri playlistId))])%list.
Proof.
  intros R S. apply issued_after_check.
  rewrite playPlaylist_run in *.
  destruct (run w (ensureAccessToken env) m) as [[u|e] m1];
    [|discriminate R].
  cbv zeta in *. cbn [defaultTo] in *.
  destruct (remote w (GetPlaylist playlistId) (trace m1)) as [error|pl].
  { simpl in R. injection R as R.
    now rewrite (playPlaylist_catch_not_success _ R) in S. }
  destruct (remote w (SetShuffle shuffle)
                   (trace m1 ++ [GetPlaylist playlistId])) as [error|u1].
  { simpl in R. injection R as R.
    now rewrite (playPlaylist_catch_not_success _ R) in S. }
  destruct (remote w (Play (ContextUri (playlistUri playlistId)))
                   (trace m1 ++ [GetPlaylist playlistId; SetShuffle shuffle]))
    as [error|u2].
  { simpl in R. injection R as R.
    now rewrite (playPlaylist_catch_not_success _ R) in S. }
  reflexivity.
Qed.

(** An instance of amended C8: the token is still fresh, so the three
    requests are all the requests. *)
Lemma playPlaylist_requests_witness :
  issued Sample.calm (playPlaylist (Some "AQDr") "37i9dQZF1DX9wC1KY45plY"
                                   (Some true))
         (Sample.holding 5000000)
  = [GetPlaylist "37i9dQZF1DX9wC1KY45plY"; SetShuffle true;
     Play (ContextUri "spotify:playlist:37i9dQZF1DX9wC1KY45plY")].
Proof.
  apply (playPlaylist_requests
           (Some "AQDr") Sample.calm (Sample.holding 5000000)
           "37i9dQZF1DX9wC1KY45plY" true
           (t := "Now playing playlist " ++ Js.dq ++ "Summer Roadtrip"
                 ++ Js.dq ++ " on shuffle mode.")).
  - reflexivity.
  - reflexivity.
Defined.

(** C9 as stated fails: an error message that contains NO_ACTIVE_DEVICE
    and also PERMISSION gets the text about permissions. *)
Lemma playTrack_no_active_device_shadowed :
  ~ (forall (env : option string) (w : World) (m : Machine)
            (trackId : string) (error : Js.Error),
        fst (run w (ensureAccessToken env) m) = Returned tt ->
        remote w (Play (Uris [trackUri trackId]))
               (trace (snd (run w (ensureAccessToken env) m)))
        = inl error ->
        Js.includes (Js.message error) "NO_ACTIVE_DEVICE" = true ->
        fst (run w (playTrack env trackId) m)
        = Returned
            [mkText "Error: No active Spotify playback device found. Please open Spotify on a device first."]).
Proof.
  intros H.
  specialize (H (Some "AQDr") Sample.restricted Sample.start
                "4u7EnebtmKWzUH433cf5Qv" _ eq_refl eq_refl eq_refl).
  vm_compute in H. discriminate H.
Qed.

(** C9, amended. When the remote play call of [playTrack] fails with an
    error whose message contains NO_ACTIVE_DEVICE, and the error text
    contains neither NOT_PREMIUM nor PERMISSION, [playTrack] returns
    exactly the text about the missing playback device. *)
Theorem playTrack_no_active_device
        (env : option string) (w : World) (m : Machine)
        (trackId : string) (error : Js.Error) :
  fst (run w (ensureAccessToken env) m) = Returned tt ->
  remote w (Play (Uris [trackUri trackId]))
         (trace (snd (run w (ensureAccessToken env) m)))
  = inl error ->
  Js.includes (Js.message error) "NO_ACTIVE_DEVICE" = true ->
  Js.includes (Js.String_ error) "NOT_PREMIUM" = false ->
  Js.includes (Js.String_ error) "PERMISSION" = false ->
  fst (run w (playTrack env trackId) m)
  = Returned
      [mkText "Error: No active Spotify playback device found. Please open Spotify on a device first."].
Proof.
  intros R F D NP NQ. rewrite playTrack_run.
  destruct (run w (ensureAccessToken env) m) as [[u|e] m1];
    [|discriminate R].
  simpl in *. rewrite F. unfold playTrack_catch.
  now rewrite NP, NQ, (includes_message _ _ D).
Qed.

(** An instance of amended C9: no device is active. *)
Lemma playTrack_no_active_device_witness :
  fst (run Sample.idle (playTrack (Some "AQDr") "xyz") Sample.start)
  = Returned
      [mkText "Error: No active Spotify playback device found. Please open Spotify on a device first."].
Proof.
  apply (playTrack_no_active_device
           (Some "AQDr") Sample.idle Sample.start "xyz"
           (error := Js.mkError "WebapiPlayerError"
              "Player command failed: No active device found NO_ACTIVE_DEVICE"));
    reflexivity.
Defined.

(** C10. In [playTrack] and in [playPlaylist] the text returned for a
    failed remote call is decided by the first of NOT_PREMIUM, PERMISSION,
    NO_ACTIVE_DEVICE, in this order, that the error text contains; an error
    text that contains none of them is returned after a generic
    introduction, so the returned text contains the raw error. *)
Theorem classification_by_precedence :
  (forall (env : option string) (w : World) (m : Machine)
          (trackId : string) (error : Js.Error),
      fst (run w (ensureAccessToken env) m) = Returned tt ->
      remote w (Play (Uris [trackUri trackId]))
             (trace (snd (run w (ensureAccessToken env) m)))
      = inl error ->
      exists t,
        fst (run w (playTrack env trackId) m) = Returned [mkText t] /\
        byPrecedence "Error playing track: " error t) /\
  (forall (env : option string) (w : World) (m : Machine)
          (playlistId : string) (shuffle : option bool) (error : Js.Error),
      fst (run w (ensureAccessToken env) m) = Returned tt ->
      playPlaylist_answers w (trace (snd (run w (ensureAccessToken env) m)))
                           playlistId (defaultTo false shuffle)
      = inl error ->
      exists t,
        fst (run w (playPlaylist env playlistId shuffle) m)
        = Returned [mkText t] /\
        byPrecedence "Error playing playlist: " error t).
Proof.
  split.
  - intros env w m trackId error R F. rewrite playTrack_run.
    destruct (run w (ensureAccessToken env) m) as [[u|e] m1];
      [|discriminate R].
    simpl in *. rewrite F.
    destruct (playTrack_catch_byPrecedence error) as [t [C P]].
    exists t. now rewrite C.
  - intros env w m playlistId shuffle error R F. rewrite playPlaylist_run.
    destruct (run w (ensureAccessToken env) m) as [[u|e] m1];
      [|discriminate R].
    unfold playPlaylist_answers in F. cbv zeta. simpl snd in F.
    destruct (playPlaylist_catch_byPrecedence error) as [t [C P]].
    exists t.
    destruct (remote w (GetPlaylist playlistId) (trace m1)) as [e1|pl].
    { injection F as F. subst e1. now rewrite C. }
    destruct (remote w (SetShuffle (defaultTo false shuffle))
                     (trace m1 ++ [GetPlaylist playlistId])) as [e2|u2].
    { injection F as F. subst e2. now rewrite C. }
    destruct (remote w (Play (ContextUri (playlistUri playlistId)))
                     (trace m1 ++ [GetPlaylist playlistId;
                                   SetShuffle (defaultTo false shuffle)]))
      as [e3|u3].
    { injection F as F. subst e3. now rewrite C. }
    discriminate F.
Qed.

(** An instance of C10: the error text contains both PERMISSION and
    NO_ACTIVE_DEVICE; both operations answer with the text for
    PERMISSION. *)
Lemma classification_by_precedence_witness :
  fst (run Sample.restricted (playTrack (Some "AQDr") "xyz") Sample.start)
  = Returned [mkText PERMISSION_text] /\
  fst (run Sample.restricted (playPlaylist (Some "AQDr") "xyz" None)
           Sample.start)
  = Returned [mkText PERMISSION_text].
Proof.
  destruct classification_by_precedence as [T P].
  split.
  - destruct (T (Some "AQDr") Sample.restricted Sample.start "xyz"
                _ eq_refl eq_refl) as [t [R [_ [Q _]]]].
    rewrite R. rewrite (Q eq_refl eq_refl). reflexivity.
  - destruct (P (Some "AQDr") Sample.restricted Sample.start "xyz" None
                _ eq_refl eq_refl) as [t [R [_ [Q _]]]].
    rewrite R. rewrite (Q eq_refl eq_refl). reflexivity.
Defined.

(* ================================================================== *)
(** ** The convenience tools *)

Lemma filter_summaries (toLowerCase : string -> string) (name : string)
      (items : list Playlist) :
  hd_error (filter (matches toLowerCase (toLowerCase name))
                   (map summarizePlaylist items))
  = option_map summarizePlaylist (find (nameContains toLowerCase name) items).
Proof.
  induction items as [|p ps IH]; simpl; [reflexivity|].
  unfold matches at 1, nameContains at 1. simpl.
  destruct (Js.includes (toLowerCase (playlist_name p)) (toLowerCase name));
    [reflexivity | exact IH].
Qed.

Section Tools.

Variable env : option string.
Variable json : JSON.
Variable toLowerCase : string -> string.
Variable w : World.
Variable m m1 : Machine.

Hypothesis checked : run w (ensureAccessToken env) m = (Returned tt, m1).

Lemma checked_no_play (rs : list Request) :
  Forall (fun r => isPlay r = false) rs ->
  Forall (fun r => isPlay r = false)
         (issued w (ensureAccessToken env) m ++ rs).
Proof.
  intros H. apply Forall_app. split; [|exact H].
  eapply Forall_impl; [|apply ensureAccessToken_grants].
  intros r G. now destruct r.
Qed.

Lemma checked_issued {A : Type} (p : Prog A) (o : Outcome A)
      (rs : list Request) :
  run w p m = (o, sent m1 rs) ->
  issued w p m = (issued w (ensureAccessToken env) m ++ rs)%list.
Proof.
  intros R. apply issued_after_check. now rewrite R, checked.
Qed.

Lemma search_and_play_no_match (query : string) (body : SearchBody) :
  remote w (SearchTracks query 1) (trace m1) = inr body ->
  tracks_items body = None \/ tracks_items body = Some [] ->
  run w (spotify_search_and_play env json query) m
  = (Returned [mkText ("No tracks found matching "
                       ++ Js.dq ++ query ++ Js.dq)],
     sent m1 [SearchTracks query 1]).
Proof.
  intros R N. unfold spotify_search_and_play.
  rewrite run_bind, searchTracks_run, checked. simpl. rewrite R.
  destruct N as [N|N]; rewrite N; reflexivity.
Qed.

Lemma find_playlist_none (name : string) (shuffle : option bool) :
  remote w (GetUserPlaylists 50) (trace m1) = inr [] ->
  run w (spotify_find_playlist env json toLowerCase name shuffle) m
  = (Returned [mkText "No playlists found for your account."],
     sent m1 [GetUserPlaylists 50]).
Proof.
  intros R. unfold spotify_find_playlist.
  rewrite run_tryCatch, run_bind, getUserPlaylists_run, checked.
  simpl. rewrite R. reflexivity.
Qed.

(** What the handler does once the listing [items] has been read back:
    the rest of its run is decided by the first playlist of [items]
    whose name contains [name]. *)
Lemma find_playlist_some (name : string) (shuffle : option bool)
      (items : list Playlist) :
  remote w (GetUserPlaylists 50) (trace m1) = inr items ->
  items <> [] ->
  readsBack json items ->
  let m2 := sent m1 [GetUserPlaylists 50] in
  run w (spotify_find_playlist env json toLowerCase name shuffle) m
  = match find (nameContains toLowerCase name) items with
    | None =>
        (Returned [mkText ("No playlists found matching "
                           ++ Js.dq ++ name ++ Js.dq ++ ".")], m2)
    | Some playlist =>
        (Returned
           [mkText
              match fst (run w (playPlaylist env (playlist_id playlist)
                                             shuffle) m2) with
              | Returned _ =>
                  "Found and playing playlist: "
                  ++ Js.dq ++ playlist_name playlist ++ Js.dq ++ " "
                  ++ (if defaultTo false shuffle
                      then "on shuffle mode" else "in order")
              | Thrown error =>
                  "Error trying to find and play playlist: "
                  ++ Js.String_ error
              end],
         snd (run w (playPlaylist env (playlist_id playlist) shuffle) m2))
    end.
Proof.
  intros R NE [RB NS] m2. unfold spotify_find_playlist.
  rewrite run_tryCatch, run_bind, getUserPlaylists_run, checked.
  cbv zeta. cbn [defaultTo]. rewrite R.
  destruct items as [|p ps]; [now elim NE|].
  cbn [text].
  destruct (String.eqb_spec
              (stringify_playlists json (map summarizePlaylist (p :: ps)))
              "No playlists found.") as [S|_]; [now elim NS|].
  rewrite RB.
  pose proof (filter_summaries toLowerCase name (p :: ps)) as F.
  destruct (find (nameContains toLowerCase name) (p :: ps))
    as [playlist|].
  - destruct (filter (matches toLowerCase (toLowerCase name))
                     (map summarizePlaylist (p :: ps))) as [|q qs];
      [discriminate F|].
    injection F as F. subst q.
    rewrite run_bind. cbn [ps_id ps_name summarizePlaylist].
    fold m2.
    destruct (run w (playPlaylist env (playlist_id playlist) shuffle) m2)
      as [[res|e] m3]; reflexivity.
  - destruct (filter (matches toLowerCase (toLowerCase name))
                     (map summarizePlaylist (p :: ps))) as [|q qs];
      [reflexivity | discriminate F].
Qed.

End Tools.

(** C7. Once the token check has returned: when the search of
    [spotify-search-and-play] finds no track, or the listing of
    [spotify-find-playlist] is empty or has no playlist whose name contains
    the query (letter case aside), the tool answers with a "not found" text
    of its own and sends no play request; and when the listing has such a
    playlist, [spotify-find-playlist] continues with one call of
    [playPlaylist], on the id of the first such playlist, whose requests are
    all the further requests of the tool. *)
Theorem convenience_tools
        (env : option string) (json : JSON) (toLowerCase : string -> string)
        (w : World) (m m1 : Machine) :
  run w (ensureAccessToken env) m = (Returned tt, m1) ->
  (forall (query : string) (body : SearchBody),
      remote w (SearchTracks query 1) (trace m1) = inr body ->
      tracks_items body = None \/ tracks_items body = Some [] ->
      answersWithoutPlaying
        w (spotify_search_and_play env json query) m
        ("No tracks found matching " ++ Js.dq ++ query ++ Js.dq)) /\
  (forall (name : string) (shuffle : option bool),
      remote w (GetUserPlaylists 50) (trace m1) = inr [] ->
      answersWithoutPlaying
        w (spotify_find_playlist env json toLowerCase name shuffle) m
        "No playlists found for your account.") /\
  (forall (name : string) (shuffle : option bool) (items : list Playlist),
      remote w (GetUserPlaylists 50) (trace m1) = inr items ->
      items <> [] ->
      readsBack json items ->
      find (nameContains toLowerCase name) items = None ->
      answersWithoutPlaying
        w (spotify_find_playlist env json toLowerCase name shuffle) m
        ("No playlists found matching " ++ Js.dq ++ name ++ Js.dq ++ ".")) /\
  (forall (name : string) (shuffle : option bool) (items : list Playlist)
          (playlist : Playlist),
      remote w (GetUserPlaylists 50) (trace m1) = inr items ->
      readsBack json items ->
      find (nameContains toLowerCase name) items = Some playlist ->
      let tool := spotify_find_playlist env json toLowerCase name shuffle in
      let play := playPlaylist env (playlist_id playlist) shuffle in
      let m2 := sent m1 [GetUserPlaylists 50] in
      snd (run w tool m) = snd (run w play m2) /\
      issued w tool m
      = (issued w (ensureAccessToken env) m
         ++ GetUserPlaylists 50 :: issued w play m2)%list /\
      fst (run w tool m)
      = Returned
          [mkText
             match fst (run w play m2) with
             | Returned _ =>
                 "Found and playing playlist: "
                 ++ Js.dq ++ playlist_name playlist ++ Js.dq ++ " "
                 ++ (if defaultTo false shuffle
                     then "on shuffle mode" else "in order")
             | Thrown error =>
                 "Error trying to find and play playlist: "
                 ++ Js.String_ error
             end]).
Proof.
  intros E.
  assert (NP : forall (p : Prog (list TextContent)) (t : string)
                      (r : Request),
             run w p m = (Returned [mkText t], sent m1 [r]) ->
             isPlay r = false ->
             answersWithoutPlaying w p m t).
  { intros p t r R P. split; [now rewrite R|].
    rewrite (checked_issued _ _ _ E p R).
    apply checked_no_play. now constructor. }
  split; [|split; [|split]].
  - intros query body R N.
    exact (NP _ _ _ (search_and_play_no_match _ json _ _ E R N) eq_refl).
  - intros name shuffle R.
    exact (NP _ _ _
              (find_playlist_none _ json toLowerCase _ _ E name shuffle R)
              eq_refl).
  - intros name shuffle items R NE RB F.
    pose proof (find_playlist_some _ toLowerCase _ _ E name shuffle R NE RB) as H.
    cbv zeta in H. rewrite F in H.
    exact (NP _ _ _ H eq_refl).
  - intros name shuffle items playlist R RB F tool play m2.
    assert (NE : items <> []) by (intros ->; discriminate F).
    pose proof (find_playlist_some _ toLowerCase _ _ E name shuffle R NE RB) as H.
    cbv zeta in H. rewrite F in H. fold tool play m2 in H.
    assert (T : snd (run w tool m) = snd (run w play m2))
      by now rewrite H.
    split; [exact T|]. split; [|now rewrite H].
    apply issued_of_trace. rewrite T, (run_trace w play m2).
    subst m2. simpl.
    rewrite (ensureAccessToken_trace _ _ _ E).
    rewrite <- !app_assoc. reflexivity.
Qed.

(** Instances of C7, run on the JSON text codec with the lower-casing of
    the letters A to Z: a search that finds nothing; an account without
    playlists; the playlists "Summer Roadtrip" and "Chill" searched for
    "jazz" and for "roadtrip". *)
Lemma convenience_tools_witness :
  answersWithoutPlaying
    Sample.empty
    (spotify_search_and_play (Some "AQDr") JsonText.json "Bohemian Rhapsody")
    Sample.start
    ("No tracks found matching " ++ Js.dq ++ "Bohemian Rhapsody" ++ Js.dq) /\
  answersWithoutPlaying
    Sample.empty
    (spotify_find_playlist (Some "AQDr") JsonText.json toLowerCaseAscii
                           "roadtrip" None)
    Sample.start
    "No playlists found for your account." /\
  answersWithoutPlaying
    Sample.calm
    (spotify_find_playlist (Some "AQDr") JsonText.json toLowerCaseAscii
                           "jazz" None)
    Sample.start
    ("No playlists found matching " ++ Js.dq ++ "jazz" ++ Js.dq ++ ".") /\
  issued Sample.calm
         (spotify_find_playlist (Some "AQDr") JsonText.json toLowerCaseAscii
                                "roadtrip" None)
         Sample.start
  = [RefreshAccessToken; GetUserPlaylists 50;
     GetPlaylist "37i9dQZF1DX9wC1KY45plY"; SetShuffle false;
     Play (ContextUri "spotify:playlist:37i9dQZF1DX9wC1KY45plY")].
Proof.
  assert (RB : readsBack JsonText.json Sample.library).
  { split; [reflexivity | discriminate]. }
  destruct (convenience_tools (Some "AQDr") JsonText.json toLowerCaseAscii
                              Sample.empty Sample.start eq_refl)
    as [Search [Listing _]].
  destruct (convenience_tools (Some "AQDr") JsonText.json toLowerCaseAscii
                              Sample.calm Sample.start eq_refl)
    as [_ [_ [NoName First]]].
  split; [|split; [|split]].
  - apply (Search "Bohemian Rhapsody" (mkSearchBody (Some []))).
    + reflexivity.
    + right. reflexivity.
  - apply (Listing "roadtrip" None). reflexivity.
  - apply (NoName "jazz" None Sample.library).
    + reflexivity.
    + discriminate.
    + exact RB.
    + reflexivity.
  - destruct (First "roadtrip" None Sample.library Sample.roadtrip
                    eq_refl RB eq_refl) as [_ [I _]].
    rewrite I. reflexivity.
Defined.

(* ================================================================== *)
(** ** Runs of the sample worlds *)

Example normalize_bare_id :
  trackUri "abc123" = "spotify:track:abc123" /\
  trackUri "spotify:track:abc123" = "spotify:track:abc123" /\
  playlistUri "spotify:track:abc123"
  = "spotify:playlist:spotify:track:abc123".
Proof. repeat split. Qed.

Example error_text :
  Js.String_ (Js.newError "Failed to authenticate with Spotify")
  = "Error: Failed to authenticate with Spotify".
Proof. reflexivity. Qed.

(** The listing of the sample account is read back as it was written. *)
Example library_reads_back : readsBack JsonText.json Sample.library.
Proof. split; [reflexivity | discriminate]. Qed.

(** A search for one result: the single text returned parses to an object
    with the name and the artist of the track. *)
Example search_bohemian :
  exists t track,
    fst (run Sample.calm
             (searchTracks (Some "AQDr") JsonText.json "Bohemian Rhapsody"
                           (Some 1))
             Sample.start)
    = Returned [mkText t] /\
    parse_track JsonText.json t = inr track /\
    ts_name track = "Bohemian Rhapsody" /\ ts_artist track = "Queen".
Proof. do 2 eexists. repeat split. Qed.

(** An account without playlists: the literal text, and no request about
    the tracks of a playlist. *)
Example playlists_of_empty_account :
  run Sample.empty (getUserPlaylists (Some "AQDr") JsonText.json None)
      Sample.start
  = (Returned [mkText "No playlists found."],
     mkMachine (mkTokenState (Some "BQDb") 4540000) 1
               [RefreshAccessToken; GetUserPlaylists 20]).
Proof. reflexivity. Qed.

(** First use, then a second call 10 seconds later on the same machine:
    one grant in all. *)
Example second_call_is_free :
  trace (snd (run (Sample.world 1010000 Sample.hour [] (inr tt) [])
                  (ensureAccessToken (Some "AQDr"))
                  (snd (run Sample.calm (ensureAccessToken (Some "AQDr"))
                            Sample.start))))
  = [RefreshAccessToken].
Proof. reflexivity. Qed.

(** The handler of the search-and-play tool does not look at what
    [playTrack] returned: here the play request fails for want of an
    active device, and the tool still answers with the track found. *)
Example search_and_play_idle :
  fst (run Sample.idle
           (spotify_search_and_play (Some "AQDr") JsonText.json "queen")
           Sample.start)
  = Returned [mkText ("Found and playing: " ++ Js.dq ++ "Bohemian Rhapsody"
                      ++ Js.dq ++ " by Queen")].
Proof. reflexivity. Qed.

(* ================================================================== *)
(** ** The token state under the facade *)

(** The operations of the facade touch the token state through the token
    check only, so each of them keeps [tracked]: the states the program
    reaches from [initialState] are all [tracked]. *)
Lemma facade_state (env : option string) (json : JSON) (w : World)
      (m : Machine) (trackId playlistId query : string)
      (limit : option Z) (shuffle : option bool) :
  let checked := state (snd (run w (ensureAccessToken env) m)) in
  state (snd (run w (playTrack env trackId) m)) = checked /\
  state (snd (run w (playPlaylist env playlistId shuffle) m)) = checked /\
  state (snd (run w (searchTracks env json query limit) m)) = checked /\
  state (snd (run w (getUserPlaylists env json limit) m)) = checked /\
  state (snd (run w (getPlaylistTracks env json playlistId limit) m))
  = checked.
Proof.
  intros checked. subst checked.
  rewrite playTrack_run, playPlaylist_run, searchTracks_run,
    getUserPlaylists_run.
  unfold getPlaylistTracks. rewrite run_bind.
  destruct (run w (ensureAccessToken env) m) as [[u|e] m1];
    [|repeat split].
  rewrite run_tryCatch. cbv zeta.
  split; [reflexivity|]. split.
  { destruct (remote w (GetPlaylist playlistId) (trace m1));
      [reflexivity|].
    destruct (remote w (SetShuffle (defaultTo false shuffle))
                     (trace m1 ++ [GetPlaylist playlistId]));
      [reflexivity|].
    destruct (remote w (Play (ContextUri (playlistUri playlistId)))
                     (trace m1 ++ [GetPlaylist playlistId;
                                   SetShuffle (defaultTo false shuffle)]));
      reflexivity. }
  split; [reflexivity|]. split; [reflexivity|].
  simpl.
  destruct (remote w (GetPlaylist playlistId) (trace m1)); simpl;
    [reflexivity|].
  destruct (remote w (GetPlaylistTracks playlistId (defaultTo 50 limit))
                   (trace m1 ++ [GetPlaylist playlistId])) as [err|body];
    simpl; [reflexivity|].
  destruct (ptb_items body); reflexivity.
Qed.

Lemma facade_tracked (env : option string) (json : JSON) (w : World)
      (m : Machine) (trackId playlistId query : string)
      (limit : option Z) (shuffle : option bool) :
  tracked (state m) ->
  tracked (state (snd (run w (playTrack env trackId) m))) /\
  tracked (state (snd (run w (playPlaylist env playlistId shuffle) m))) /\
  tracked (state (snd (run w (searchTracks env json query limit) m))) /\
  tracked (state (snd (run w (getUserPlaylists env json limit) m))) /\
  tracked (state (snd (run w (getPlaylistTracks env json playlistId limit)
                            m))).
Proof.
  intros T.
  destruct (facade_state env json w m trackId playlistId query limit shuffle)
    as [A [B [C [D E]]]].
  rewrite A, B, C, D, E.
  pose proof (ensureAccessToken_tracked env w m T) as K.
  repeat split; exact K.
Qed.

(* ================================================================== *)
(** ** Further properties: the token across calls *)

(** X1. After a call that obtained a grant of [expires_in] seconds at
    clock reading [t0], a later call sends no request exactly when it
    reads the clock before [t0 + expires_in * 1000 - 120000]: the stored
    instant already lies 60 seconds before the expiry, and the test takes
    off 60 seconds more. *)
Theorem token_reused_until_margin
        (env : option string) (w w' : World) (m : Machine) (grant : Grant) :
  clock w (ticks m) >= tokenExpirationTime (state m) - 60000 ->
  grantAnswer w env (trace m) = inr grant ->
  issued w' (ensureAccessToken env) (snd (run w (ensureAccessToken env) m))
  = [] <->
  clock w' (ticks (snd (run w (ensureAccessToken env) m)))
  < clock w (ticks m) + expires_in grant * 1000 - 120000.
Proof.
  intros S G. rewrite (ensureAccessToken_granted env w m S G).
  set (m1 := mkMachine _ _ _). simpl snd.
  destruct (Z_lt_ge_dec (clock w' (ticks m1))
                        (tokenExpirationTime (state m1) - 60000)) as [F|S'].
  - split; intros _.
    + subst m1. simpl in *. lia.
    + apply issued_of_trace. rewrite (ensureAccessToken_fresh env w' m1 F).
      simpl. now rewrite app_nil_r.
  - split; intros H.
    + assert (I : issued w' (ensureAccessToken env) m1 = [grantFlow env]).
      { apply issued_of_trace.
        destruct (grantAnswer w' env (trace m1)) as [err|g] eqn:G'.
        - now rewrite (ensureAccessToken_rejected env w' m1 S' G').
        - now rewrite (ensureAccessToken_granted env w' m1 S' G'). }
      rewrite I in H. discriminate H.
    + subst m1. simpl in *. lia.
Qed.

(** An instance of X1: a grant of one hour at 1000000; at 4479999 the
    token is reused, at 4480000 it is not. *)
Lemma token_reused_until_margin_witness :
  issued (Fixture.later 4479999) (ensureAccessToken (Some "AQDr"))
         (snd (run Sample.calm (ensureAccessToken (Some "AQDr")) Sample.start))
  = [] /\
  issued (Fixture.later 4480000) (ensureAccessToken (Some "AQDr"))
         (snd (run Sample.calm (ensureAccessToken (Some "AQDr")) Sample.start))
  <> [].
Proof.
  assert (S : clock Sample.calm (ticks Sample.start)
              >= tokenExpirationTime (state Sample.start) - 60000).
  { simpl. lia. }
  split.
  - apply (token_reused_until_margin
             (Some "AQDr") Sample.calm (Fixture.later 4479999) Sample.start
             (grant := mkGrant "BQDb" 3600) S eq_refl).
    simpl. lia.
  - intros E.
    apply (token_reused_until_margin
             (Some "AQDr") Sample.calm (Fixture.later 4480000) Sample.start
             (grant := mkGrant "BQDb" 3600) S eq_refl) in E.
    simpl in E. lia.
Defined.

(** X2. A rejected grant leaves the token state as it was, so a later
    call, the clock not having gone back, asks for a grant again: a failure
    is retried by the next call, and only by it. *)
Theorem failed_grant_is_retried
        (env : option string) (w w' : World) (m : Machine) (err : Js.Error) :
  clock w (ticks m) >= tokenExpirationTime (state m) - 60000 ->
  grantAnswer w env (trace m) = inl err ->
  clock w' (ticks (snd (run w (ensureAccessToken env) m)))
  >= clock w (ticks m) ->
  state (snd (run w (ensureAccessToken env) m)) = state m /\
  issued w (ensureAccessToken env) m = [grantFlow env] /\
  issued w' (ensureAccessToken env) (snd (run w (ensureAccessToken env) m))
  = [grantFlow env].
Proof.
  intros S G. rewrite (ensureAccessToken_rejected env w m S G).
  set (m1 := mkMachine _ _ _). simpl snd. intros L.
  split; [reflexivity|]. split.
  - apply issued_of_trace.
    now rewrite (ensureAccessToken_rejected env w m S G).
  - assert (S' : clock w' (ticks m1)
                 >= tokenExpirationTime (state m1) - 60000)
      by (subst m1; simpl in *; lia).
    apply issued_of_trace.
    destruct (grantAnswer w' env (trace m1)) as [e|g] eqn:G'.
    + now rewrite (ensureAccessToken_rejected env w' m1 S' G').
    + now rewrite (ensureAccessToken_granted env w' m1 S' G').
Qed.

(** An instance of X2: the grant is rejected twice in a row. *)
Lemma failed_grant_is_retried_witness :
  state (snd (run Sample.rejecting (ensureAccessToken (Some "AQDr"))
                  Sample.start))
  = initialState /\
  issued Sample.rejecting (ensureAccessToken (Some "AQDr")) Sample.start
  = [RefreshAccessToken] /\
  issued Sample.rejecting (ensureAccessToken (Some "AQDr"))
         (snd (run Sample.rejecting (ensureAccessToken (Some "AQDr"))
                   Sample.start))
  = [RefreshAccessToken].
Proof.
  apply (failed_grant_is_retried
           (Some "AQDr") Sample.rejecting Sample.rejecting Sample.start
           (err := Js.mkError "WebapiAuthenticationError" "invalid_grant")).
  - simpl. lia.
  - reflexivity.
  - simpl. lia.
Defined.

(* ================================================================== *)
(** ** Further properties: the facade *)

Lemma ensureAccessToken_thrown (env : option string) (w : World)
      (m : Machine) (e : Js.Error) :
  fst (run w (ensureAccessToken env) m) = Thrown e ->
  e = Js.newError "Failed to authenticate with Spotify".
Proof.
  intros T.
  destruct (Z_lt_ge_dec (clock w (ticks m))
                        (tokenExpirationTime (state m) - 60000)) as [F|S].
  - rewrite (ensureAccessToken_fresh env w m F) in T. discriminate T.
  - destruct (grantAnswer w env (trace m)) as [err|grant] eqn:G.
    + rewrite (ensureAccessToken_rejected env w m S G) in T.
      now injection T as <-.
    + rewrite (ensureAccessToken_granted env w m S G) in T. discriminate T.
Qed.

Lemma getPlaylistTracks_run (env : option string) (json : JSON) (w : World)
      (playlistId : string) (limit : option Z) (m : Machine) :
  run w (getPlaylistTracks env json playlistId limit) m =
  match run w (ensureAccessToken env) m with
  | (Thrown e, m1) => (Thrown e, m1)
  | (Returned _, m1) =>
      let r1 := GetPlaylist playlistId in
      let r2 := GetPlaylistTracks playlistId (defaultTo 50 limit) in
      match remote w r1 (trace m1) with
      | inl error =>
          (Returned [mkText ("Error getting playlist tracks: "
                             ++ Js.String_ error)],
           sent m1 [r1])
      | inr playlist =>
          (Returned
             [mkText
                match remote w r2 (trace m1 ++ [r1]) with
                | inl error =>
                    "Error getting playlist tracks: " ++ Js.String_ error
                | inr response =>
                    match ptb_items response with
                    | _ :: _ =>
                        stringify_playlist_tracks json
                          (mkPlaylistTracksSummary
                             (playlist_name playlist)
                             (ptb_total response)
                             (mapi summarizeItem 0 (ptb_items response)))
                    | [] =>
                        "Playlist " ++ Js.dq ++ playlist_name playlist
                        ++ Js.dq ++ " is empty."
                    end
                end],
           sent m1 [r1; r2])
      end
  end.
Proof.
  unfold getPlaylistTracks. rewrite run_bind.
  destruct (run w (ensureAccessToken env) m) as [[u|e] m1]; auto.
  rewrite run_tryCatch. unfold sent. simpl.
  destruct (remote w (GetPlaylist playlistId) (trace m1)); simpl; auto.
  destruct (remote w (GetPlaylistTracks playlistId (defaultTo 50 limit))
                   (trace m1 ++ [GetPlaylist playlistId])) as [err|body];
    simpl; rewrite <- ?app_assoc; simpl; auto.
  destruct (ptb_items body); simpl; rewrite <- ?app_assoc; reflexivity.
Qed.

(** X3. Once the token check has returned, no operation of the facade
    throws: each returns a list of texts that is not empty, and all but
    [searchTracks] return exactly one text. *)
Theorem facade_returns_after_check
        (env : option string) (json : JSON) (w : World) (m : Machine)
        (trackId playlistId query : string) (limit : option Z)
        (shuffle : option bool) :
  fst (run w (ensureAccessToken env) m) = Returned tt ->
  (exists t ts,
      fst (run w (searchTracks env json query limit) m) = Returned (t :: ts)) /\
  (exists t, fst (run w (playTrack env trackId) m) = Returned [t]) /\
  (exists t, fst (run w (getUserPlaylists env json limit) m) = Returned [t]) /\
  (exists t,
      fst (run w (getPlaylistTracks env json playlistId limit) m)
      = Returned [t]) /\
  (exists t,
      fst (run w (playPlaylist env playlistId shuffle) m) = Returned [t]).
Proof.
  intros R.
  rewrite searchTracks_run, playTrack_run, getUserPlaylists_run,
    getPlaylistTracks_run, playPlaylist_run.
  destruct (run w (ensureAccessToken env) m) as [[u|e] m1];
    [|discriminate R].
  cbv zeta. repeat split.
  - destruct (remote w (SearchTracks query (defaultTo 5 limit)) (trace m1))
      as [err|body]; [do 2 eexists; reflexivity|].
    destruct (tracks_items body) as [[|t ts]|]; do 2 eexists; reflexivity.
  - destruct (remote w (Play (Uris [trackUri trackId])) (trace m1)) as [err|u'].
    + unfold playTrack_catch.
      destruct (Js.includes (Js.String_ err) "NOT_PREMIUM");
        [|destruct (Js.includes (Js.String_ err) "PERMISSION");
          [|destruct (Js.includes (Js.String_ err) "NO_ACTIVE_DEVICE")]];
        eexists; reflexivity.
    + eexists; reflexivity.
  - destruct (remote w (GetUserPlaylists (defaultTo 20 limit)) (trace m1))
      as [err|[|p ps]]; eexists; reflexivity.
  - destruct (remote w (GetPlaylist playlistId) (trace m1));
      eexists; reflexivity.
  - assert (C : forall err, exists t, playPlaylist_catch err = [t]).
    { intros err. unfold playPlaylist_catch.
      destruct (Js.includes (Js.String_ err) "NOT_PREMIUM");
        [|destruct (Js.includes (Js.String_ err) "PERMISSION");
          [|destruct (Js.includes (Js.String_ err) "NO_ACTIVE_DEVICE")]];
        eexists; reflexivity. }
    destruct (remote w (GetPlaylist playlistId) (trace m1)) as [err|pl].
    { destruct (C err) as [t E]. exists t. simpl. now rewrite E. }
    destruct (remote w (SetShuffle (defaultTo false shuffle))
                     (trace m1 ++ [GetPlaylist playlistId])) as [err|u2].
    { destruct (C err) as [t E]. exists t. simpl. now rewrite E. }
    destruct (remote w (Play (ContextUri (playlistUri playlistId)))
                     (trace m1 ++ [GetPlaylist playlistId;
                                   SetShuffle (defaultTo false shuffle)]))
      as [err|u3].
    { destruct (C err) as [t E]. exists t. simpl. now rewrite E. }
    eexists. reflexivity.
Qed.

(** An instance of X3: a world in which the playlist lookup fails. *)
Lemma facade_returns_after_check_witness :
  (exists t,
      fst (run Fixture.unknownPlaylist
               (getPlaylistTracks (Some "AQDr") JsonText.json "nosuch" None)
               Sample.start)
      = Returned [t]) /\
  (exists t,
      fst (run Fixture.unknownPlaylist
               (playPlaylist (Some "AQDr") "nosuch" None) Sample.start)
      = Returned [t]).
Proof.
  destruct (facade_returns_after_check
              (Some "AQDr") JsonText.json Fixture.unknownPlaylist Sample.start
              "xyz" "nosuch" "queen" None None eq_refl)
    as [_ [_ [_ [T P]]]].
  split; assumption.
Defined.

(** X4. When the token check throws, every operation of the facade throws
    the same error, which is always "Failed to authenticate with Spotify",
    and stops where the token check stopped: it sends no request of its
    own. *)
Theorem facade_throws_with_check
        (env : option string) (json : JSON) (w : World) (m : Machine)
        (trackId playlistId query : string) (limit : option Z)
        (shuffle : option bool) (e : Js.Error) :
  fst (run w (ensureAccessToken env) m) = Thrown e ->
  let stopped := (Thrown e, snd (run w (ensureAccessToken env) m)) in
  e = Js.newError "Failed to authenticate with Spotify" /\
  run w (searchTracks env json query limit) m = stopped /\
  run w (playTrack env trackId) m = stopped /\
  run w (getUserPlaylists env json limit) m = stopped /\
  run w (getPlaylistTracks env json playlistId limit) m = stopped /\
  run w (playPlaylist env playlistId shuffle) m = stopped.
Proof.
  intros T stopped. subst stopped.
  split; [exact (ensureAccessToken_thrown env w m T)|].
  rewrite searchTracks_run, playTrack_run, getUserPlaylists_run,
    getPlaylistTracks_run, playPlaylist_run.
  destruct (run w (ensureAccessToken env) m) as [[u|e'] m1];
    [discriminate T|].
  simpl in T. injection T as ->. repeat split.
Qed.

(** An instance of X4: the grant is rejected. *)
Lemma facade_throws_with_check_witness :
  run Sample.rejecting (playTrack (Some "AQDr") "xyz") Sample.start
  = (Thrown (Js.newError "Failed to authenticate with Spotify"),
     mkMachine initialState 1 [RefreshAccessToken]).
Proof.
  destruct (facade_throws_with_check
              (Some "AQDr") JsonText.json Sample.rejecting Sample.start
              "xyz" "nosuch" "queen" None None
              (e := Js.newError "Failed to authenticate with Spotify")
              eq_refl)
    as [_ [_ [P _]]].
  exact P.
Defined.

(** X5. [playPlaylist] sends a play request only after the playlist lookup
    and the shuffle request have both succeeded: a failed lookup (an
    unknown id, or an argument the lookup cannot resolve) ends the
    operation before anything is played. *)
Theorem playPlaylist_plays_after_lookup
        (env : option string) (w : World) (m : Machine)
        (playlistId : string) (shuffle : option bool) (options : PlayOptions) :
  In (Play options) (issued w (playPlaylist env playlistId shuffle) m) ->
  let m1 := snd (run w (ensureAccessToken env) m) in
  options = ContextUri (playlistUri playlistId) /\
  (exists playlist,
      remote w (GetPlaylist playlistId) (trace m1) = inr playlist) /\
  remote w (SetShuffle (defaultTo false shuffle))
         (trace m1 ++ [GetPlaylist playlistId])
  = inr tt.
Proof.
  intros I m1. subst m1.
  assert (G : ~ In (Play options) (issued w (ensureAccessToken env) m)).
  { intros J.
    pose proof (ensureAccessToken_grants env w m) as F.
    rewrite Forall_forall in F. specialize (F _ J). discriminate F. }
  assert (A : forall rs,
             issued w (playPlaylist env playlistId shuffle) m
             = (issued w (ensureAccessToken env) m ++ rs)%list ->
             In (Play options) rs).
  { intros rs E. rewrite E in I. apply in_app_or in I.
    destruct I as [I|I]; [now elim G | exact I]. }
  pose proof (playPlaylist_run env w playlistId shuffle m) as R.
  destruct (run w (ensureAccessToken env) m) as [[u|e] m1] eqn:E.
  - cbv zeta in R. simpl snd.
    destruct (remote w (GetPlaylist playlistId) (trace m1)) as [err|pl].
    { assert (J : In (Play options) [GetPlaylist playlistId]).
      { apply A, issued_after_check. now rewrite R, E. }
      simpl in J. destruct J as [J|[]]. discriminate J. }
    destruct (remote w (SetShuffle (defaultTo false shuffle))
                     (trace m1 ++ [GetPlaylist playlistId])) as [err|[]].
    { assert (J : In (Play options)
                     [GetPlaylist playlistId;
                      SetShuffle (defaultTo false shuffle)]).
      { apply A, issued_after_check. now rewrite R, E. }
      simpl in J. destruct J as [J|[J|[]]]; discriminate J. }
    assert (J : In (Play options)
                   [GetPlaylist playlistId;
                    SetShuffle (defaultTo false shuffle);
                    Play (ContextUri (playlistUri playlistId))]).
    { apply A, issued_after_check.
      destruct (remote w (Play (ContextUri (playlistUri playlistId)))
                       (trace m1 ++ [GetPlaylist playlistId;
                                     SetShuffle (defaultTo false shuffle)]));
        now rewrite R, E. }
    simpl in J. destruct J as [J|[J|[J|[]]]]; try discriminate J.
    injection J as <-. split; [reflexivity|]. split; [now exists pl|].
    reflexivity.
  - assert (J : In (Play options) []).
    { apply A, issued_after_check. rewrite R, E. simpl.
      now rewrite app_nil_r. }
    destruct J.
Qed.

(** An instance of X5. *)
Lemma playPlaylist_plays_after_lookup_witness :
  remote Sample.calm (GetPlaylist "37i9dQZF1DX9wC1KY45plY")
         (trace (snd (run Sample.calm (ensureAccessToken (Some "AQDr"))
                          Sample.start)))
  = inr Sample.roadtrip.
Proof.
  destruct (playPlaylist_plays_after_lookup
              (Some "AQDr") Sample.calm Sample.start
              "37i9dQZF1DX9wC1KY45plY" None
              (ContextUri "spotify:playlist:37i9dQZF1DX9wC1KY45plY"))
    as [_ [[playlist L] _]].
  - vm_compute. auto 6.
  - reflexivity.
Defined.

(** X6. The listing operations report a failed request as text that ends
    with the raw error, and [getPlaylistTracks] does not ask for the tracks
    of a playlist whose lookup failed; a page without entries is reported
    as an empty playlist, whatever total the answer states. *)
Theorem listing_failures_as_text
        (env : option string) (json : JSON) (w : World) (m m1 : Machine)
        (playlistId query : string) (limit : option Z) :
  run w (ensureAccessToken env) m = (Returned tt, m1) ->
  (forall error,
      remote w (SearchTracks query (defaultTo 5 limit)) (trace m1)
      = inl error ->
      run w (searchTracks env json query limit) m
      = (Returned [mkText ("Error searching for tracks: "
                           ++ Js.String_ error)],
         sent m1 [SearchTracks query (defaultTo 5 limit)])) /\
  (forall error,
      remote w (GetUserPlaylists (defaultTo 20 limit)) (trace m1)
      = inl error ->
      run w (getUserPlaylists env json limit) m
      = (Returned [mkText ("Error getting user playlists: "
                           ++ Js.String_ error)],
         sent m1 [GetUserPlaylists (defaultTo 20 limit)])) /\
  (forall error,
      remote w (GetPlaylist playlistId) (trace m1) = inl error ->
      run w (getPlaylistTracks env json playlistId limit) m
      = (Returned [mkText ("Error getting playlist tracks: "
                           ++ Js.String_ error)],
         sent m1 [GetPlaylist playlistId])) /\
  (forall playlist total,
      remote w (GetPlaylist playlistId) (trace m1) = inr playlist ->
      remote w (GetPlaylistTracks playlistId (defaultTo 50 limit))
             (trace m1 ++ [GetPlaylist playlistId])
      = inr (mkPlaylistTracksBody [] total) ->
      fst (run w (getPlaylistTracks env json playlistId limit) m)
      = Returned [mkText ("Playlist " ++ Js.dq ++ playlist_name playlist
                          ++ Js.dq ++ " is empty.")]).
Proof.
  intros E.
  rewrite searchTracks_run, getUserPlaylists_run, getPlaylistTracks_run, E.
  cbv zeta. repeat split.
  - intros error R. now rewrite R.
  - intros error R. now rewrite R.
  - intros error R. now rewrite R.
  - intros playlist total R T. now rewrite R, T.
Qed.

(** An instance of X6: an unknown playlist. *)
Lemma listing_failures_as_text_witness :
  run Fixture.unknownPlaylist
      (getPlaylistTracks (Some "AQDr") JsonText.json "nosuch" None)
      Sample.start
  = (Returned [mkText "Error getting playlist tracks: WebapiRegularError: Resource not found"],
     mkMachine (mkTokenState (Some "BQDb") 4540000) 1
               [RefreshAccessToken; GetPlaylist "nosuch"]).
Proof.
  destruct (listing_failures_as_text
              (Some "AQDr") JsonText.json Fixture.unknownPlaylist Sample.start
              (m1 := mkMachine (mkTokenState (Some "BQDb") 4540000) 1
                               [RefreshAccessToken])
              "nosuch" "queen" None eq_refl)
    as [_ [_ [L _]]].
  exact (L Fixture.notFound eq_refl).
Defined.

Lemma mapi_nth {A B : Type} (f : Z -> A -> B) (xs : list A) :
  forall (k : Z) (n : nat) (x : A),
    nth_error xs n = Some x ->
    nth_error (mapi f k xs) n = Some (f (k + Z.of_nat n) x).
Proof.
  induction xs as [|y ys IH]; intros k n x H.
  - destruct n; discriminate H.
  - destruct n as [|n]; simpl in *.
    + injection H as ->. now rewrite Z.add_0_r.
    + rewrite (IH (k + 1) n x H). do 2 f_equal. lia.
Qed.

Lemma mapi_length {A B : Type} (f : Z -> A -> B) (xs : list A) :
  forall k : Z, List.length (mapi f k xs) = List.length xs.
Proof.
  induction xs as [|y ys IH]; intros k; simpl; [reflexivity|].
  now rewrite IH.
Qed.

(** X7. The entries [getPlaylistTracks] lists are as many as the items of
    the page and in their order; the entry of the item at index [n] has
    position [n + 1], and an item without a track is listed as an unknown
    track with its date. *)
Theorem playlist_entries_numbered
        (items : list PlaylistItem) (n : nat) (item : PlaylistItem) :
  nth_error items n = Some item ->
  let entries := mapi summarizeItem 0 items in
  List.length entries = List.length items /\
  (exists entry,
      nth_error entries n = Some entry /\
      entryPosition entry = Z.of_nat n + 1 /\
      (item_track item = None ->
       entry = UnknownTrack (Z.of_nat n + 1) (item_added_at item))).
Proof.
  intros H entries. subst entries. split; [apply mapi_length|].
  exists (summarizeItem (Z.of_nat n) item). split.
  - now rewrite (mapi_nth summarizeItem items 0 n H).
  - unfold summarizeItem.
    destruct (item_track item); split; try reflexivity.
    discriminate.
Qed.

(** An instance of X7: the second item of the sample page has no track. *)
Lemma playlist_entries_numbered_witness :
  nth_error (mapi summarizeItem 0 (ptb_items Fixture.page)) 1
  = Some (UnknownTrack 2 "2024-05-02T10:00:00Z").
Proof.
  destruct (playlist_entries_numbered
              (ptb_items Fixture.page) 1
              (item := mkPlaylistItem "2024-05-02T10:00:00Z" None) eq_refl)
    as [_ [entry [N [_ U]]]].
  rewrite N, (U eq_refl). reflexivity.
Defined.

(** X8. For [playTrack] a bare id and the URI made of it are the same
    request: given an id that is not itself a track URI, both forms run
    alike. *)
Theorem playTrack_forms_agree
        (env : option string) (w : World) (m : Machine) (id : string) :
  Js.startsWith id "spotify:track:" = false ->
  run w (playTrack env ("spotify:track:" ++ id)) m
  = run w (playTrack env id) m.
Proof.
  intros B.
  assert (U : trackUri ("spotify:track:" ++ id) = trackUri id).
  { unfold trackUri. rewrite toUri_prefixed. unfold toUri. now rewrite B. }
  rewrite !playTrack_run, U. reflexivity.
Qed.

(** An instance of X8. *)
Lemma playTrack_forms_agree_witness :
  run Sample.calm (playTrack (Some "AQDr")
                             "spotify:track:4u7EnebtmKWzUH433cf5Qv")
      Sample.start
  = run Sample.calm (playTrack (Some "AQDr") "4u7EnebtmKWzUH433cf5Qv")
        Sample.start.
Proof.
  apply (playTrack_forms_agree (Some "AQDr") Sample.calm Sample.start
                               "4u7EnebtmKWzUH433cf5Qv").
  reflexivity.
Defined.

(* ================================================================== *)
(** ** Further properties: the convenience tools *)

Section MoreTools.

Variable env : option string.
Variable json : JSON.
Variable toLowerCase : string -> string.
Variable w : World.

(** The search-and-play tool once the search has returned the texts
    [first :: rest] of tracks found. *)
Lemma search_and_play_run (query : string) (m : Machine) :
  run w (spotify_search_and_play env json query) m =
  match run w (searchTracks env json query (Some 1)) m with
  | (Thrown e, m2) => (Thrown e, m2)
  | (Returned [], m2) =>
      (Returned [mkText ("No tracks found matching "
                         ++ Js.dq ++ query ++ Js.dq)], m2)
  | (Returned (first :: _), m2) =>
      if String.eqb (text first) "No tracks found matching your query."
      then (Returned [mkText ("No tracks found matching "
                              ++ Js.dq ++ query ++ Js.dq)], m2)
      else
        match parse_track json (text first) with
        | inl syntaxError =>
            (Returned [mkText ("Error trying to play track: "
                               ++ Js.String_ syntaxError)], m2)
        | inr track =>
            (Returned
               [mkText
                  match fst (run w (playTrack env (ts_id track)) m2) with
                  | Returned _ =>
                      "Found and playing: " ++ Js.dq ++ ts_name track
                      ++ Js.dq ++ " by " ++ ts_artist track
                  | Thrown error =>
                      "Error trying to play track: " ++ Js.String_ error
                  end],
             snd (run w (playTrack env (ts_id track)) m2))
        end
  end.
Proof.
  unfold spotify_search_and_play. rewrite run_bind.
  destruct (run w (searchTracks env json query (Some 1)) m)
    as [[[|first rest]|e] m2]; try reflexivity.
  destruct (String.eqb (text first) "No tracks found matching your query.");
    [reflexivity|].
  rewrite run_tryCatch.
  destruct (parse_track json (text first)) as [se|track]; [reflexivity|].
  rewrite run_bind.
  destruct (run w (playTrack env (ts_id track)) m2) as [[res|e] m3];
    reflexivity.
Qed.

Lemma search_and_play_found (query : string) (m m1 : Machine)
      (body : SearchBody) (track : Track) (more : list Track) :
  run w (ensureAccessToken env) m = (Returned tt, m1) ->
  remote w (SearchTracks query 1) (trace m1) = inr body ->
  tracks_items body = Some (track :: more) ->
  readsBackTrack json track ->
  let play := playTrack env (track_id track) in
  let m2 := sent m1 [SearchTracks query 1] in
  run w (spotify_search_and_play env json query) m
  = (Returned
       [mkText
          match fst (run w play m2) with
          | Returned _ =>
              "Found and playing: " ++ Js.dq ++ track_name track ++ Js.dq
              ++ " by " ++ Js.join ", " (map artist_name (track_artists track))
          | Thrown error =>
              "Error trying to play track: " ++ Js.String_ error
          end],
     snd (run w play m2)).
Proof.
  intros E R T [RB NS] play m2.
  rewrite search_and_play_run, searchTracks_run, E.
  cbv zeta. cbn [defaultTo]. rewrite R, T. cbn [map text].
  destruct (String.eqb_spec
              (stringify_track json (summarizeTrack track))
              "No tracks found matching your query.") as [S|_];
    [now elim NS|].
  rewrite RB. reflexivity.
Qed.

End MoreTools.

(** X9. When the search of [spotify-search-and-play] finds tracks, the
    tool continues with one call of [playTrack] on the id of the first
    track found, whose requests are all its further requests; it answers
    with the name and the artists of that track unless that call throws. *)
Theorem search_and_play_first_result
        (env : option string) (json : JSON) (w : World) (m m1 : Machine)
        (query : string) (body : SearchBody) (track : Track)
        (more : list Track) :
  run w (ensureAccessToken env) m = (Returned tt, m1) ->
  remote w (SearchTracks query 1) (trace m1) = inr body ->
  tracks_items body = Some (track :: more) ->
  readsBackTrack json track ->
  let tool := spotify_search_and_play env json query in
  let play := playTrack env (track_id track) in
  let m2 := sent m1 [SearchTracks query 1] in
  snd (run w tool m) = snd (run w play m2) /\
  issued w tool m
  = (issued w (ensureAccessToken env) m
     ++ SearchTracks query 1 :: issued w play m2)%list /\
  fst (run w tool m)
  = Returned
      [mkText
         match fst (run w play m2) with
         | Returned _ =>
             "Found and playing: " ++ Js.dq ++ track_name track ++ Js.dq
             ++ " by " ++ Js.join ", " (map artist_name (track_artists track))
         | Thrown error =>
             "Error trying to play track: " ++ Js.String_ error
         end].
Proof.
  intros E R T RB tool play m2.
  pose proof (@search_and_play_found env json w query m m1 body track more
                                      E R T RB) as H.
  cbv zeta in H. fold tool play m2 in H.
  assert (S : snd (run w tool m) = snd (run w play m2)) by now rewrite H.
  split; [exact S|]. split; [|now rewrite H].
  apply issued_of_trace. rewrite S, (run_trace w play m2).
  subst m2. simpl.
  rewrite (ensureAccessToken_trace _ _ _ E).
  rewrite <- !app_assoc. reflexivity.
Qed.

(** An instance of X9. *)
Lemma search_and_play_first_result_witness :
  issued Sample.calm
         (spotify_search_and_play (Some "AQDr") JsonText.json "queen")
         Sample.start
  = [RefreshAccessToken; SearchTracks "queen" 1;
     Play (Uris ["spotify:track:4u7EnebtmKWzUH433cf5Qv"])].
Proof.
  destruct (@search_and_play_first_result
              (Some "AQDr") JsonText.json Sample.calm Sample.start
              (mkMachine (mkTokenState (Some "BQDb") 4540000) 1
                         [RefreshAccessToken])
              "queen" (mkSearchBody (Some [Sample.bohemian]))
              Sample.bohemian [] eq_refl eq_refl eq_refl)
    as [_ [I _]].
  - split; [reflexivity | discriminate].
  - rewrite I. reflexivity.
Defined.

(** X10. [spotify-search-and-play] does not look at what [playTrack]
    returned: when the track was found and the play request fails, the tool
    still answers that the track is playing. *)
Theorem search_and_play_hides_play_failure
        (env : option string) (json : JSON) (w : World) (m m1 m3 : Machine)
        (query : string) (body : SearchBody) (track : Track)
        (more : list Track) (error : Js.Error) :
  run w (ensureAccessToken env) m = (Returned tt, m1) ->
  remote w (SearchTracks query 1) (trace m1) = inr body ->
  tracks_items body = Some (track :: more) ->
  readsBackTrack json track ->
  run w (ensureAccessToken env) (sent m1 [SearchTracks query 1])
  = (Returned tt, m3) ->
  remote w (Play (Uris [trackUri (track_id track)])) (trace m3)
  = inl error ->
  fst (run w (spotify_search_and_play env json query) m)
  = Returned
      [mkText ("Found and playing: " ++ Js.dq ++ track_name track ++ Js.dq
               ++ " by "
               ++ Js.join ", " (map artist_name (track_artists track)))].
Proof.
  intros E R T RB E2 P.
  pose proof (@search_and_play_found env json w query m m1 body track more
                                      E R T RB) as H.
  cbv zeta in H. rewrite H, playTrack_run, E2. reflexivity.
Qed.

(** An instance of X10: no device is active. *)
Lemma search_and_play_hides_play_failure_witness :
  fst (run Sample.idle
           (spotify_search_and_play (Some "AQDr") JsonText.json "queen")
           Sample.start)
  = Returned [mkText ("Found and playing: " ++ Js.dq ++ "Bohemian Rhapsody"
                      ++ Js.dq ++ " by Queen")].
Proof.
  apply (@search_and_play_hides_play_failure
           (Some "AQDr") JsonText.json Sample.idle Sample.start
           (mkMachine (mkTokenState (Some "BQDb") 4540000) 1
                      [RefreshAccessToken])
           (mkMachine (mkTokenState (Some "BQDb") 4540000) 2
                      [RefreshAccessToken; SearchTracks "queen" 1])
           "queen" (mkSearchBody (Some [Sample.bohemian]))
           Sample.bohemian []
           (Js.mkError "WebapiPlayerError"
              "Player command failed: No active device found NO_ACTIVE_DEVICE")
           eq_refl eq_refl eq_refl).
  - split; [reflexivity | discriminate].
  - reflexivity.
  - reflexivity.
Defined.

(** X11. [spotify-find-playlist] never throws: in every world and from
    every machine it returns exactly one text. *)
Theorem find_playlist_never_throws
        (env : option string) (json : JSON) (toLowerCase : string -> string)
        (w : World) (m : Machine) (name : string) (shuffle : option bool) :
  exists t,
    fst (run w (spotify_find_playlist env json toLowerCase name shuffle) m)
    = Returned [mkText t].
Proof.
  unfold spotify_find_playlist.
  rewrite run_tryCatch, run_bind, getUserPlaylists_run.
  destruct (run w (ensureAccessToken env) m) as [[u|e] m1];
    [|eexists; reflexivity].
  cbv zeta.
  set (texts := match remote w (GetUserPlaylists (defaultTo 20 (Some 50)))
                             (trace m1) with
                | inl error => _
                | inr _ => _
                end).
  assert (S : exists first, texts = [first]).
  { subst texts.
    destruct (remote w (GetUserPlaylists (defaultTo 20 (Some 50)))
                     (trace m1)) as [err|[|p ps]]; eexists; reflexivity. }
  destruct S as [first ->].
  destruct (String.eqb (text first) "No playlists found.");
    [eexists; reflexivity|].
  destruct (parse_playlists json (text first)) as [se|playlists];
    [eexists; reflexivity|].
  destruct (filter (matches toLowerCase (toLowerCase name)) playlists)
    as [|playlist rest]; [eexists; reflexivity|].
  rewrite run_bind.
  destruct (run w (playPlaylist env (ps_id playlist) shuffle)
                (sent m1 [GetUserPlaylists (defaultTo 20 (Some 50))]))
    as [[res|e] m3]; eexists; reflexivity.
Qed.

(** X12. [spotify-search-and-play] throws exactly when the token check of
    its search throws, and then with the error of that check: the search
    is not inside the [try] of the tool. *)
Theorem search_and_play_throws_with_check
        (env : option string) (json : JSON) (w : World) (m : Machine)
        (query : string) (e : Js.Error) :
  fst (run w (spotify_search_and_play env json query) m) = Thrown e <->
  fst (run w (ensureAccessToken env) m) = Thrown e.
Proof.
  rewrite search_and_play_run, searchTracks_run.
  destruct (run w (ensureAccessToken env) m) as [[u|e'] m1];
    [|simpl; split; intros H; injection H as ->; reflexivity].
  cbv zeta. split; [|discriminate].
  set (texts := match remote w (SearchTracks query (defaultTo 5 (Some 1)))
                             (trace m1) with
                | inl error => _
                | inr _ => _
                end).
  destruct texts as [|first rest]; [discriminate|].
  destruct (String.eqb (text first) "No tracks found matching your query.");
    [discriminate|].
  destruct (parse_track json (text first)); discriminate.
Qed.

(** X13. A token check that fails between the search and the play request
    of [spotify-search-and-play] does not make the tool throw: it answers
    with the text of the authentication error. *)
Theorem search_and_play_reports_late_failure
        (env : option string) (json : JSON) (w : World) (m m1 : Machine)
        (query : string) (body : SearchBody) (track : Track)
        (more : list Track) (e : Js.Error) :
  run w (ensureAccessToken env) m = (Returned tt, m1) ->
  remote w (SearchTracks query 1) (trace m1) = inr body ->
  tracks_items body = Some (track :: more) ->
  readsBackTrack json track ->
  fst (run w (ensureAccessToken env) (sent m1 [SearchTracks query 1]))
  = Thrown e ->
  fst (run w (spotify_search_and_play env json query) m)
  = Returned
      [mkText "Error trying to play track: Error: Failed to authenticate with Spotify"].
Proof.
  intros E R T RB E2.
  pose proof (@search_and_play_found env json w query m m1 body track more
                                      E R T RB) as H.
  cbv zeta in H. rewrite H, playTrack_run.
  rewrite (ensureAccessToken_thrown _ _ _ E2) in E2.
  destruct (run w (ensureAccessToken env) (sent m1 [SearchTracks query 1]))
    as [[u|e'] m3]; [discriminate E2|].
  simpl in E2. injection E2 as ->. reflexivity.
Qed.

(** An instance of X13: the first grant lasts 30 seconds and the second is
    rejected. *)
Lemma search_and_play_reports_late_failure_witness :
  fst (run Fixture.expiring
           (spotify_search_and_play (Some "AQDr") JsonText.json "queen")
           Sample.start)
  = Returned
      [mkText "Error trying to play track: Error: Failed to authenticate with Spotify"].
Proof.
  apply (@search_and_play_reports_late_failure
           (Some "AQDr") JsonText.json Fixture.expiring Sample.start
           (mkMachine (mkTokenState (Some "BQDc") 970000) 1
                      [RefreshAccessToken])
           "queen" (mkSearchBody (Some [Sample.bohemian]))
           Sample.bohemian []
           (Js.newError "Failed to authenticate with Spotify")
           eq_refl eq_refl eq_refl).
  - split; [reflexivity | discriminate].
  - reflexivity.
Defined.

(** X14. When the remote request of the first step fails, the tools try to
    parse the error text of the facade as JSON: what they answer is the
    error of [JSON.parse], not the error of the remote service, and nothing
    is played. *)
Theorem tools_report_parse_error
        (env : option string) (json : JSON) (toLowerCase : string -> string)
        (w : World) (m m1 : Machine) :
  run w (ensureAccessToken env) m = (Returned tt, m1) ->
  (forall (query : string) (error syntaxError : Js.Error),
      remote w (SearchTracks query 1) (trace m1) = inl error ->
      parse_track json ("Error searching for tracks: " ++ Js.String_ error)
      = inl syntaxError ->
      run w (spotify_search_and_play env json query) m
      = (Returned [mkText ("Error trying to play track: "
                           ++ Js.String_ syntaxError)],
         sent m1 [SearchTracks query 1])) /\
  (forall (name : string) (shuffle : option bool)
          (error syntaxError : Js.Error),
      remote w (GetUserPlaylists 50) (trace m1) = inl error ->
      parse_playlists json ("Error getting user playlists: "
                            ++ Js.String_ error)
      = inl syntaxError ->
      run w (spotify_find_playlist env json toLowerCase name shuffle) m
      = (Returned [mkText ("Error trying to find and play playlist: "
                           ++ Js.String_ syntaxError)],
         sent m1 [GetUserPlaylists 50])).
Proof.
  intros E. split.
  - intros query error syntaxError R P.
    rewrite search_and_play_run, searchTracks_run, E.
    cbv zeta. cbn [defaultTo]. rewrite R. cbn [text].
    change (String.eqb ("Error searching for tracks: " ++ Js.String_ error)
                       "No tracks found matching your query.") with false.
    cbv iota. now rewrite P.
  - intros name shuffle error syntaxError R P.
    unfold spotify_find_playlist.
    rewrite run_tryCatch, run_bind, getUserPlaylists_run, E.
    cbv zeta. cbn [defaultTo]. rewrite R. cbn [text].
    change (String.eqb ("Error getting user playlists: " ++ Js.String_ error)
                       "No playlists found.") with false.
    cbv iota. now rewrite P.
Qed.

(** An instance of X14: the listing of the playlists fails. *)
Lemma tools_report_parse_error_witness :
  run Fixture.noListing
      (spotify_find_playlist (Some "AQDr") JsonText.json toLowerCaseAscii
                             "roadtrip" None)
      Sample.start
  = (Returned [mkText "Error trying to find and play playlist: SyntaxError: Unexpected token in JSON"],
     mkMachine (mkTokenState (Some "BQDb") 4540000) 1
               [RefreshAccessToken; GetUserPlaylists 50]).
Proof.
  destruct (@tools_report_parse_error
              (Some "AQDr") JsonText.json toLowerCaseAscii Fixture.noListing
              Sample.start
              (mkMachine (mkTokenState (Some "BQDb") 4540000) 1
                         [RefreshAccessToken])
              eq_refl) as [_ L].
  exact (L "roadtrip" None Fixture.notFound JsonText.syntaxError
           eq_refl eq_refl).
Defined.
(* ================================================================== *)
(** ** Properties of simple-auth.js *)

Lemma startsWith_cons (c d : ascii) (s p : string) :
  Js.startsWith (String c s) (String d p)
  = if ascii_dec d c then Js.startsWith s p else false.
Proof. reflexivity. Qed.

Lemma includes_cons (c : ascii) (s p : string) :
  Js.includes (String c s) p
  = Js.startsWith (String c s) p || Js.includes s p.
Proof. reflexivity. Qed.

Lemma startsWith_drop (p s : string) :
  Js.startsWith s p = true -> s = p ++ SimpleAuth.drop (String.length p) s.
Proof.
  unfold Js.startsWith. revert s.
  induction p as [|c p IH]; intros s H.
  - now destruct s.
  - destruct s as [|d s]; simpl in H; [discriminate H|].
    destruct (ascii_dec c d) as [<-|]; [|discriminate H].
    simpl. f_equal. now apply IH.
Qed.

Lemma startsWith_includes (s p : string) :
  Js.startsWith s p = true -> Js.includes s p = true.
Proof.
  intros H. destruct s as [|c s].
  - change (Js.includes "" p) with (Js.startsWith "" p || false).
    now rewrite H.
  - change (Js.includes (String c s) p)
      with (Js.startsWith (String c s) p || Js.includes s p).
    now rewrite H.
Qed.

Lemma notAmp_split (s : string) :
  exists b,
    s = SimpleAuth.notAmp s ++ b /\
    (b = "" \/ Js.startsWith b "&" = true) /\
    Js.includes (SimpleAuth.notAmp s) "&" = false.
Proof.
  induction s as [|c s [b [E [B N]]]].
  - exists "". auto.
  - cbn [SimpleAuth.notAmp]. unfold SimpleAuth.isAmp.
    destruct (Ascii.eqb_spec c "&") as [->|D].
    + exists (String "&" s).
      split; [reflexivity|]. split; [|reflexivity].
      right. rewrite startsWith_cons.
      destruct (ascii_dec "&" "&") as [_|K]; [|now elim K].
      apply startsWith_empty.
    + exists b. cbn [append]. rewrite <- E.
      split; [reflexivity|]. split; [exact B|].
      rewrite includes_cons, startsWith_cons.
      destruct (ascii_dec "&" c) as [<-|_]; [now elim D | exact N].
Qed.

Lemma notAmp_app (code b : string) :
  Js.includes code "&" = false ->
  b = "" \/ Js.startsWith b "&" = true ->
  SimpleAuth.notAmp (code ++ b) = code.
Proof.
  intros N B. induction code as [|c code IH]; cbn [append].
  - destruct B as [->|B]; [reflexivity|].
    destruct b as [|d b]; [reflexivity|].
    rewrite startsWith_cons in B.
    destruct (ascii_dec "&" d) as [<-|_]; [reflexivity | discriminate B].
  - rewrite includes_cons, startsWith_cons in N.
    apply orb_false_elim in N. destruct N as [N1 N2].
    cbn [SimpleAuth.notAmp]. unfold SimpleAuth.isAmp.
    destruct (Ascii.eqb_spec c "&") as [->|_].
    + destruct (ascii_dec "&" "&") as [_|K]; [|now elim K].
      now rewrite startsWith_empty in N1.
    + now rewrite (IH N2).
Qed.

Lemma matchCode_unfold (s : string) :
  SimpleAuth.matchCode s =
  match SimpleAuth.codeAt s with
  | String c code => Some (String c code)
  | EmptyString =>
      match s with
      | String _ s' => SimpleAuth.matchCode s'
      | EmptyString => None
      end
  end.
Proof. destruct s; reflexivity. Qed.

(** An occurrence of "code=" cannot begin inside [a] and end inside the
    "code=" that follows it. *)
Lemma startsWith_straddle (a r : string) :
  a <> "" ->
  Js.startsWith a "code=" = false ->
  Js.startsWith (a ++ "code=" ++ r) "code=" = false.
Proof.
  intros NE H.
  destruct a as [|a0 [|a1 [|a2 [|a3 [|a4 a]]]]]; [now elim NE| | | | |];
    cbn [append]; rewrite ?startsWith_cons in *;
    repeat match goal with
           | |- context [ascii_dec ?x ?y] =>
               destruct (ascii_dec x y) as [?E|?N];
               [try discriminate; subst|]
           end;
    try reflexivity; try discriminate H.
  now rewrite startsWith_empty in H.
Qed.

Lemma matchCode_leftmost (a code b : string) :
  Js.includes a "code=" = false ->
  code <> "" ->
  Js.includes code "&" = false ->
  b = "" \/ Js.startsWith b "&" = true ->
  SimpleAuth.matchCode (a ++ "code=" ++ code ++ b) = Some code.
Proof.
  intros A NE N B. induction a as [|c a IH].
  - rewrite matchCode_unfold. unfold SimpleAuth.codeAt.
    change ("" ++ "code=" ++ code ++ b) with ("code=" ++ (code ++ b)).
    rewrite startsWith_app.
    change (SimpleAuth.drop 5 ("code=" ++ (code ++ b))) with (code ++ b).
    rewrite (notAmp_app _ N B). destruct code; [now elim NE | reflexivity].
  - rewrite matchCode_unfold. unfold SimpleAuth.codeAt.
    rewrite includes_cons in A.
    apply orb_false_elim in A. destruct A as [A1 A2].
    rewrite (startsWith_straddle (a := String c a)); [|discriminate|exact A1].
    cbn [append]. exact (IH A2).
Qed.

Lemma matchCode_sound (s code : string) :
  SimpleAuth.matchCode s = Some code ->
  code <> "" /\
  Js.includes code "&" = false /\
  exists a b,
    s = a ++ "code=" ++ code ++ b /\
    (b = "" \/ Js.startsWith b "&" = true).
Proof.
  induction s as [|c s IH]; rewrite matchCode_unfold; intros H.
  - discriminate H.
  - unfold SimpleAuth.codeAt in H.
    destruct (Js.startsWith (String c s) "code=") eqn:P.
    + destruct (notAmp_split (SimpleAuth.drop 5 (String c s)))
        as [b [E [B N]]].
      destruct (SimpleAuth.notAmp (SimpleAuth.drop 5 (String c s)))
        as [|d code'] eqn:K.
      * destruct (IH H) as [NE [NA [a [b' [E' B']]]]].
        repeat split; auto. exists (String c a), b'.
        split; [|exact B']. cbn [append]. f_equal. exact E'.
      * injection H as <-. repeat split; [discriminate | exact N |].
        exists "", b. split; [|exact B].
        rewrite (startsWith_drop _ _ P) at 1.
        change (String.length "code=") with 5%nat.
        rewrite E at 1. reflexivity.
    + destruct (IH H) as [NE [NA [a [b' [E' B']]]]].
      repeat split; auto. exists (String c a), b'.
      split; [|exact B']. cbn [append]. f_equal. exact E'.
Qed.

(** X15. Whatever is pasted, the script logs one of three texts: the
    request to paste the URL when the trimmed input has no "code="; the
    failure text when it has one but none is followed by a character other
    than '&'; otherwise the command for a code that is not empty, has no
    '&', and stands in the input between a "code=" and the next '&' or the
    end. *)
Theorem onData_cases
        (trim encodeURIComponent : string -> string)
        (CLIENT_ID CLIENT_SECRET data : string) :
  let logged :=
    SimpleAuth.onData trim encodeURIComponent CLIENT_ID CLIENT_SECRET data in
  (Js.includes (trim data) "code=" = false /\
   logged = SimpleAuth.pleasePaste) \/
  (Js.includes (trim data) "code=" = true /\
   SimpleAuth.matchCode (trim data) = None /\
   logged = SimpleAuth.couldNotExtract) \/
  (exists code a b,
      trim data = a ++ "code=" ++ code ++ b /\
      code <> "" /\
      Js.includes code "&" = false /\
      (b = "" \/ Js.startsWith b "&" = true) /\
      logged
      = SimpleAuth.commandText encodeURIComponent CLIENT_ID CLIENT_SECRET
                               code).
Proof.
  intros logged. subst logged. unfold SimpleAuth.onData.
  destruct (Js.includes (trim data) "code=") eqn:I; [|now left].
  right.
  destruct (SimpleAuth.matchCode (trim data)) as [code|] eqn:M;
    [|now left].
  right. destruct (matchCode_sound _ M) as [NE [NA [a [b [E B]]]]].
  exists code, a, b. auto.
Qed.

(** X16. The script takes the code after the first "code=" of the pasted
    text: when the trimmed input is [a ++ "code=" ++ code ++ b] with no
    "code=" in [a], a code that is not empty and has no '&', and [b] empty
    or beginning with '&', the command logged is the one for [code]. *)
Theorem onData_extracts_first_code
        (trim encodeURIComponent : string -> string)
        (CLIENT_ID CLIENT_SECRET data a code b : string) :
  trim data = a ++ "code=" ++ code ++ b ->
  Js.includes a "code=" = false ->
  code <> "" ->
  Js.includes code "&" = false ->
  b = "" \/ Js.startsWith b "&" = true ->
  SimpleAuth.onData trim encodeURIComponent CLIENT_ID CLIENT_SECRET data
  = SimpleAuth.commandText encodeURIComponent CLIENT_ID CLIENT_SECRET code.
Proof.
  intros E A NE N B. unfold SimpleAuth.onData. rewrite E.
  rewrite (includes_app_r a _ _
             (startsWith_includes _ _ (startsWith_app "code=" (code ++ b)))).
  now rewrite (@matchCode_leftmost a code b A NE N B).
Qed.

(** An instance of X16: the redirect of the authorization, pasted with a
    line end; and a parameter whose name ends in "code" that comes first. *)
Lemma onData_extracts_first_code_witness :
  SimpleAuth.onData trimAscii encodeURIComponentBytes "a1b8" "6cea"
    ("http://localhost:8888?code=AQDx_9&state=k3" ++ SimpleAuth.nl)
  = SimpleAuth.commandText encodeURIComponentBytes "a1b8" "6cea" "AQDx_9" /\
  SimpleAuth.onData trimAscii encodeURIComponentBytes "a1b8" "6cea"
    "http://localhost:8888?barcode=1&code=2"
  = SimpleAuth.commandText encodeURIComponentBytes "a1b8" "6cea" "1".
Proof.
  split.
  - apply (@onData_extracts_first_code
             trimAscii encodeURIComponentBytes "a1b8" "6cea"
             ("http://localhost:8888?code=AQDx_9&state=k3" ++ SimpleAuth.nl)
             "http://localhost:8888?" "AQDx_9" "&state=k3").
    + reflexivity.
    + reflexivity.
    + discriminate.
    + reflexivity.
    + right. reflexivity.
  - apply (@onData_extracts_first_code
             trimAscii encodeURIComponentBytes "a1b8" "6cea"
             "http://localhost:8888?barcode=1&code=2"
             "http://localhost:8888?bar" "1" "&code=2").
    + reflexivity.
    + reflexivity.
    + discriminate.
    + reflexivity.
    + right. reflexivity.
Defined.

(* ================================================================== *)
(** ** Running programs over all the requests *)

Lemma exec_pbind {A B : Type} (v : Service) (p : Proc A) (f : A -> Proc B) :
  forall m,
    exec v (pbind p f) m =
    match exec v p m with
    | (Returned a, m') => exec v (f a) m'
    | (Thrown e, m') => (Thrown e, m')
    end.
Proof.
  induction p as [a|e|k IH|k IH|s k IH|c k IH]; intros m; simpl; auto.
Qed.

Lemma exec_ptryCatch {A : Type} (v : Service) (p : Proc A)
      (h : Js.Error -> Proc A) :
  forall m,
    exec v (ptryCatch p h) m =
    match exec v p m with
    | (Returned a, m') => (Returned a, m')
    | (Thrown e, m') => exec v (h e) m'
    end.
Proof.
  induction p as [a|e|k IH|k IH|s k IH|c k IH]; intros m; simpl; auto.
Qed.

(** A lifted program runs as the program of the facade does in the world
    the facade sees. *)
Lemma exec_lift {A : Type} (v : Service) (h : list Call) (p : Prog A) :
  forall (st : TokenState) (k : nat) (t : list Request),
    exec v (lift p) (mkProcess st k (h ++ map Facade t)) =
    (fst (run (facadeWorld v h) p (mkMachine st k t)),
     mkProcess
       (state (snd (run (facadeWorld v h) p (mkMachine st k t))))
       (ticks (snd (run (facadeWorld v h) p (mkMachine st k t))))
       (h ++ map Facade
               (trace (snd (run (facadeWorld v h) p (mkMachine st k t)))))).
Proof.
  induction p as [a|e|q IH|q IH|s q IH|r q IH]; intros st k t; simpl.
  - reflexivity.
  - reflexivity.
  - apply IH.
  - apply IH.
  - apply IH.
  - rewrite <- app_assoc.
    change [Facade r] with (map Facade [r]). rewrite <- map_app.
    apply IH.
Qed.

Section Check.

Variable env : option string.
Variable v : Service.
Variable m : Process.

(** The token check of a process, as the facade runs it. *)
Lemma exec_check :
  exec v (lift (ensureAccessToken env)) m =
  (fst (run (facadeWorld v (calls m)) (ensureAccessToken env)
            (facadeMachine m)),
   mkProcess
     (state (snd (run (facadeWorld v (calls m)) (ensureAccessToken env)
                      (facadeMachine m))))
     (ticks (snd (run (facadeWorld v (calls m)) (ensureAccessToken env)
                      (facadeMachine m))))
     (calls m
      ++ map Facade
           (issued (facadeWorld v (calls m)) (ensureAccessToken env)
                   (facadeMachine m)))).
Proof.
  pose proof (exec_lift v (calls m) (ensureAccessToken env)
                        (pstate m) (pticks m) []) as H.
  simpl map in H. rewrite app_nil_r in H.
  destruct m as [st k h]. simpl in *. rewrite H.
  unfold facadeMachine, issued. reflexivity.
Qed.

(** Its calls are no calls, or the one grant request. *)
Lemma exec_check_calls :
  calls (snd (exec v (lift (ensureAccessToken env)) m)) = calls m \/
  calls (snd (exec v (lift (ensureAccessToken env)) m))
  = (calls m ++ [Facade (grantFlow env)])%list.
Proof.
  rewrite exec_check. cbn [snd calls].
  destruct (ensureAccessToken_issued env (facadeWorld v (calls m))
                                     (facadeMachine m)) as [E|E];
    rewrite E; simpl; [left; apply app_nil_r | right; reflexivity].
Qed.

Lemma exec_check_thrown (e : Js.Error) :
  fst (exec v (lift (ensureAccessToken env)) m) = Thrown e ->
  e = Js.newError "Failed to authenticate with Spotify".
Proof.
  rewrite exec_check. cbn [fst]. apply ensureAccessToken_thrown.
Qed.

End Check.

(* ================================================================== *)
(** ** Properties of the remaining operations *)

Section AccountRuns.

Variables clientId clientSecret redirectUri env : option string.
Variable stringify_devices : list DeviceSummary -> string.
Variable stringify_playing : PlayingSummary -> string.
Variable v : Service.

Lemma getDevices_exec (m : Process) :
  exec v (getDevices env stringify_devices) m =
  match exec v (lift (ensureAccessToken env)) m with
  | (Thrown e, m1) => (Thrown e, m1)
  | (Returned _, m1) =>
      (Returned
         [mkText
            match answer v GetMyDevices (calls m1) with
            | inl error => "Error getting devices: " ++ Js.String_ error
            | inr (Some (mkDevicesBody (Some (device :: more)))) =>
                stringify_devices (map summarizeDevice (device :: more))
            | inr _ => "No available Spotify devices found."
            end],
       called m1 [GetMyDevices])
  end.
Proof.
  unfold getDevices. rewrite exec_pbind.
  destruct (exec v (lift (ensureAccessToken env)) m) as [[u|e] m1]; auto.
  rewrite exec_ptryCatch. simpl.
  destruct (answer v GetMyDevices (calls m1)) as [err|[[[[|d ds]|]]|]];
    reflexivity.
Qed.

Lemma getCurrentlyPlaying_exec (m : Process) :
  exec v (getCurrentlyPlaying env stringify_playing) m =
  match exec v (lift (ensureAccessToken env)) m with
  | (Thrown e, m1) => (Thrown e, m1)
  | (Returned _, m1) =>
      (Returned
         [mkText
            match answer v GetMyCurrentPlayingTrack (calls m1) with
            | inl error =>
                "Error getting currently playing track: "
                ++ Js.String_ error
            | inr (Some playback) =>
                match playback_item playback with
                | Some track =>
                    stringify_playing (summarizePlaying playback track)
                | None => "No track currently playing."
                end
            | inr None => "No track currently playing."
            end],
       called m1 [GetMyCurrentPlayingTrack])
  end.
Proof.
  unfold getCurrentlyPlaying. rewrite exec_pbind.
  destruct (exec v (lift (ensureAccessToken env)) m) as [[u|e] m1]; auto.
  rewrite exec_ptryCatch. simpl.
  destruct (answer v GetMyCurrentPlayingTrack (calls m1))
    as [err|[playback|]]; try reflexivity.
  simpl. destruct (playback_item playback); reflexivity.
Qed.

Lemma debugSpotifyConfig_exec (m : Process) :
  exec v (debugSpotifyConfig clientId clientSecret redirectUri env) m =
  match exec v (lift (ensureAccessToken env)) m with
  | (Thrown e, m1) =>
      (Returned
         [mkText (debugReport clientId clientSecret redirectUri env
                    ("❌ Failed to get access token: " ++ Js.String_ e)
                    "❓ Unknown" "❓ Not checked")],
       m1)
  | (Returned _, m1) =>
      (Returned
         [mkText
            (debugReport clientId clientSecret redirectUri env
               "✅ Successfully obtained access token"
               match answer v GetMe (calls m1) with
               | inl _ => "❌ Failed to verify premium status"
               | inr me => premiumStatusOf me
               end
               match answer v GetMyDevices (calls m1 ++ [GetMe]) with
               | inr (Some body) => activeDeviceOf body
               | _ => "❌ Failed to check devices - likely missing permissions"
               end)],
       called m1 [GetMe; GetMyDevices])
  end.
Proof.
  unfold debugSpotifyConfig.
  rewrite exec_pbind, exec_ptryCatch, exec_pbind.
  destruct (exec v (lift (ensureAccessToken env)) m) as [[u|e] m1];
    [|reflexivity].
  rewrite exec_pbind, exec_ptryCatch. unfold called. simpl.
  destruct (answer v GetMe (calls m1)) as [e1|me]; simpl;
    destruct (answer v GetMyDevices (calls m1 ++ [GetMe])) as [e2|[body|]];
    simpl; rewrite <- ?app_assoc; reflexivity.
Qed.

End AccountRuns.

(** X17. Once the token check has returned, [getDevices] makes exactly one
    call, does not throw, and returns one text: the raw error after
    "Error getting devices: " when the call fails, and the sentence for no
    device when the answer has no body, no device list or an empty one. *)
Theorem getDevices_outcomes
        (env : option string) (stringify_devices : list DeviceSummary -> string)
        (v : Service) (m m1 : Process) :
  exec v (lift (ensureAccessToken env)) m = (Returned tt, m1) ->
  exists t,
    exec v (getDevices env stringify_devices) m
    = (Returned [mkText t], called m1 [GetMyDevices]) /\
    (forall error,
        answer v GetMyDevices (calls m1) = inl error ->
        t = "Error getting devices: " ++ Js.String_ error) /\
    (forall body,
        answer v GetMyDevices (calls m1) = inr body ->
        body = None \/ body = Some (mkDevicesBody None)
        \/ body = Some (mkDevicesBody (Some [])) ->
        t = "No available Spotify devices found.") /\
    (forall device more,
        answer v GetMyDevices (calls m1)
        = inr (Some (mkDevicesBody (Some (device :: more)))) ->
        t = stringify_devices (map summarizeDevice (device :: more))).
Proof.
  intros E. eexists. rewrite getDevices_exec, E. split; [reflexivity|].
  repeat split.
  - intros error A. now rewrite A.
  - intros body A [ -> | [ -> | -> ] ]; now rewrite A.
  - intros device more A. now rewrite A.
Qed.

(** An instance of X17: the device listing is refused. *)
Lemma getDevices_outcomes_witness :
  exec (Desk.service Sample.hour (inl Desk.forbidden) (inl Desk.forbidden))
       (getDevices (Some "AQDr") (fun _ => "[]")) Desk.start
  = (Returned [mkText "Error getting devices: WebapiRegularError: Insufficient client scope"],
     mkProcess (mkTokenState (Some "BQDb") 4540000) 1
               [Facade RefreshAccessToken; GetMyDevices]).
Proof.
  destruct (@getDevices_outcomes
              (Some "AQDr") (fun _ => "[]")
              (Desk.service Sample.hour (inl Desk.forbidden)
                            (inl Desk.forbidden))
              Desk.start
              (mkProcess (mkTokenState (Some "BQDb") 4540000) 1
                         [Facade RefreshAccessToken])
              eq_refl) as [t [R [F _]]].
  rewrite R, (F Desk.forbidden eq_refl). reflexivity.
Defined.

(** X18. Once the token check has returned, [getCurrentlyPlaying] makes
    exactly one call and returns one text.  What is playing is serialised
    as a track only when it has both artists and an album, and as an
    episode otherwise; an answer without body or without item gives the
    sentence for nothing playing. *)
Theorem getCurrentlyPlaying_outcomes
        (env : option string)
        (stringify_playing : PlayingSummary -> string)
        (v : Service) (m m1 : Process) :
  exec v (lift (ensureAccessToken env)) m = (Returned tt, m1) ->
  exists t,
    exec v (getCurrentlyPlaying env stringify_playing) m
    = (Returned [mkText t], called m1 [GetMyCurrentPlayingTrack]) /\
    (forall body,
        answer v GetMyCurrentPlayingTrack (calls m1) = inr body ->
        body = None \/ (exists playback,
                           body = Some playback /\
                           playback_item playback = None) ->
        t = "No track currently playing.") /\
    (forall playback track,
        answer v GetMyCurrentPlayingTrack (calls m1) = inr (Some playback) ->
        playback_item playback = Some track ->
        playing_artists track = None \/ playing_album track = None ->
        t = stringify_playing
              (PlayingEpisode (playing_id track) (playing_name track)
                              (playing_uri track)
                              (playback_progress_ms playback)
                              (playing_duration_ms track)
                              (playback_is_playing playback))) /\
    (forall playback track artists album,
        answer v GetMyCurrentPlayingTrack (calls m1) = inr (Some playback) ->
        playback_item playback = Some track ->
        playing_artists track = Some artists ->
        playing_album track = Some album ->
        t = stringify_playing
              (PlayingTrack (playing_id track) (playing_name track)
                            (Js.join ", " (map artist_name artists))
                            (album_name album) (playing_uri track)
                            (playback_progress_ms playback)
                            (playing_duration_ms track)
                            (playback_is_playing playback))).
Proof.
  intros E. eexists. rewrite getCurrentlyPlaying_exec, E.
  split; [reflexivity|]. repeat split.
  - intros body A [ -> | [playback [ -> I]] ]; rewrite A; [reflexivity|].
    now rewrite I.
  - intros playback track A I [N|N]; rewrite A, I; unfold summarizePlaying;
      rewrite N; [reflexivity|].
    now destruct (playing_artists track).
  - intros playback track artists album A I NA NB.
    rewrite A, I. unfold summarizePlaying. now rewrite NA, NB.
Qed.

(** An instance of X18: what is playing has artists but no album. *)
Lemma getCurrentlyPlaying_outcomes_witness :
  fst (exec (Desk.service Sample.hour (inl Desk.forbidden)
                          (inl Desk.forbidden))
            (getCurrentlyPlaying
               (Some "AQDr")
               (fun p => match p with
                         | PlayingTrack _ _ _ _ _ _ _ _ => "track"
                         | PlayingEpisode _ _ _ _ _ _ => "episode"
                         end))
            Desk.start)
  = Returned [mkText "episode"].
Proof.
  destruct (@getCurrentlyPlaying_outcomes
              (Some "AQDr")
              (fun p => match p with
                        | PlayingTrack _ _ _ _ _ _ _ _ => "track"
                        | PlayingEpisode _ _ _ _ _ _ => "episode"
                        end)
              (Desk.service Sample.hour (inl Desk.forbidden)
                            (inl Desk.forbidden))
              Desk.start
              (mkProcess (mkTokenState (Some "BQDb") 4540000) 1
                         [Facade RefreshAccessToken])
              eq_refl) as [t [R [_ [P _]]]].
  rewrite R. cbn [fst].
  rewrite (P _ _ eq_refl eq_refl (or_intror eq_refl)). reflexivity.
Defined.

(** X19. [debugSpotifyConfig] never throws: in every service and from
    every process it returns exactly one text. *)
Theorem debugSpotifyConfig_never_throws
        (clientId clientSecret redirectUri env : option string)
        (v : Service) (m : Process) :
  exists t,
    fst (exec v (debugSpotifyConfig clientId clientSecret redirectUri env) m)
    = Returned [mkText t].
Proof.
  rewrite debugSpotifyConfig_exec.
  destruct (exec v (lift (ensureAccessToken env)) m) as [[u|e] m1];
    eexists; reflexivity.
Qed.

(** X20. When the token check fails, [debugSpotifyConfig] makes no further
    call: it does not ask for the user or the devices, and reports the
    authentication error with the two other statuses left unknown. *)
Theorem debugSpotifyConfig_without_token
        (clientId clientSecret redirectUri env : option string)
        (v : Service) (m : Process) (e : Js.Error) :
  fst (exec v (lift (ensureAccessToken env)) m) = Thrown e ->
  exec v (debugSpotifyConfig clientId clientSecret redirectUri env) m
  = (Returned
       [mkText
          (debugReport clientId clientSecret redirectUri env
             "❌ Failed to get access token: Error: Failed to authenticate with Spotify"
             "❓ Unknown" "❓ Not checked")],
     snd (exec v (lift (ensureAccessToken env)) m)) /\
  calls (snd (exec v (debugSpotifyConfig clientId clientSecret redirectUri
                                         env) m))
  = (calls m ++ [Facade (grantFlow env)])%list.
Proof.
  intros T. pose proof (exec_check_thrown env v m T) as ->.
  assert (R : exec v (debugSpotifyConfig clientId clientSecret redirectUri
                                         env) m
              = (Returned
                   [mkText
                      (debugReport clientId clientSecret redirectUri env
                         "❌ Failed to get access token: Error: Failed to authenticate with Spotify"
                         "❓ Unknown" "❓ Not checked")],
                 snd (exec v (lift (ensureAccessToken env)) m))).
  { rewrite debugSpotifyConfig_exec.
    destruct (exec v (lift (ensureAccessToken env)) m) as [[u|e'] m1];
      [discriminate T|].
    simpl in T. injection T as ->. reflexivity. }
  split; [exact R|]. rewrite R. cbn [snd].
  destruct (exec_check_calls env v m) as [C|C]; [|exact C].
  exfalso. revert T C. rewrite exec_check. cbn [fst snd calls].
  intros T C.
  destruct (ensureAccessToken_issued env (facadeWorld v (calls m))
                                     (facadeMachine m)) as [I|I].
  - destruct (Z_lt_ge_dec (clock (facadeWorld v (calls m))
                                 (ticks (facadeMachine m)))
                          (tokenExpirationTime (state (facadeMachine m))
                           - 60000)) as [F|S].
    + rewrite (ensureAccessToken_fresh env _ _ F) in T. discriminate T.
    + assert (J : issued (facadeWorld v (calls m)) (ensureAccessToken env)
                         (facadeMachine m) = [grantFlow env]).
      { apply issued_of_trace.
        destruct (grantAnswer (facadeWorld v (calls m)) env
                              (trace (facadeMachine m))) as [err|g] eqn:G.
        - now rewrite (ensureAccessToken_rejected env _ _ S G).
        - now rewrite (ensureAccessToken_granted env _ _ S G). }
      rewrite J in I. discriminate I.
  - rewrite I in C. simpl in C.
    apply (f_equal (@List.length Call)) in C.
    rewrite length_app in C. simpl in C. lia.
Qed.

(** An instance of X20: the refresh credential is rejected. *)
Lemma debugSpotifyConfig_without_token_witness :
  calls (snd (exec (Desk.service
                      (inl (Js.mkError "WebapiAuthenticationError"
                                       "invalid_grant"))
                      (inr (mkUser "ejfox" (Some "premium")))
                      (inr (Some (mkDevicesBody (Some [Desk.speaker])))))
                   (debugSpotifyConfig (Some "id") (Some "secret")
                                       (Some "http://localhost:8888")
                                       (Some "AQDr"))
                   Desk.start))
  = [Facade RefreshAccessToken].
Proof.
  destruct (@debugSpotifyConfig_without_token
              (Some "id") (Some "secret") (Some "http://localhost:8888")
              (Some "AQDr")
              (Desk.service
                 (inl (Js.mkError "WebapiAuthenticationError"
                                  "invalid_grant"))
                 (inr (mkUser "ejfox" (Some "premium")))
                 (inr (Some (mkDevicesBody (Some [Desk.speaker])))))
              Desk.start
              (Js.newError "Failed to authenticate with Spotify")
              eq_refl) as [_ C].
  exact C.
Defined.

(** X21. When the token check returns, [debugSpotifyConfig] asks for the
    user and then for the devices, always both and nothing else: a failed
    user lookup is reported as an unverified premium status and does not
    keep the devices from being checked. *)
Theorem debugSpotifyConfig_probes
        (clientId clientSecret redirectUri env : option string)
        (v : Service) (m m1 : Process) :
  exec v (lift (ensureAccessToken env)) m = (Returned tt, m1) ->
  snd (exec v (debugSpotifyConfig clientId clientSecret redirectUri env) m)
  = called m1 [GetMe; GetMyDevices] /\
  (calls m1 = calls m \/ calls m1 = (calls m ++ [Facade (grantFlow env)])%list)
  /\
  forall error body,
    answer v GetMe (calls m1) = inl error ->
    answer v GetMyDevices (calls m1 ++ [GetMe]) = inr (Some body) ->
    fst (exec v (debugSpotifyConfig clientId clientSecret redirectUri env) m)
    = Returned
        [mkText (debugReport clientId clientSecret redirectUri env
                   "✅ Successfully obtained access token"
                   "❌ Failed to verify premium status"
                   (activeDeviceOf body))].
Proof.
  intros E. rewrite debugSpotifyConfig_exec, E. split; [reflexivity|].
  split.
  - pose proof (exec_check_calls env v m) as C. now rewrite E in C.
  - intros error body A D. cbn [fst]. now rewrite A, D.
Qed.

(** An instance of X21: the user lookup is refused, a speaker is active. *)
Lemma debugSpotifyConfig_probes_witness :
  calls (snd (exec (Desk.service
                      Sample.hour (inl Desk.forbidden)
                      (inr (Some (mkDevicesBody
                                    (Some [Desk.phone; Desk.speaker])))))
                   (debugSpotifyConfig (Some "id") (Some "secret") None
                                       (Some "AQDr"))
                   Desk.start))
  = [Facade RefreshAccessToken; GetMe; GetMyDevices].
Proof.
  destruct (@debugSpotifyConfig_probes
              (Some "id") (Some "secret") None (Some "AQDr")
              (Desk.service
                 Sample.hour (inl Desk.forbidden)
                 (inr (Some (mkDevicesBody
                               (Some [Desk.phone; Desk.speaker])))))
              Desk.start
              (mkProcess (mkTokenState (Some "BQDb") 4540000) 1
                         [Facade RefreshAccessToken])
              eq_refl) as [S _].
  rewrite S. reflexivity.
Defined.

(* ================================================================== *)
(** ** Operations on a fresh token *)

(** X22. While the token is fresh, an operation of the facade sends only
    its own requests and leaves the token state as it is: the search, the
    listing of the playlists and the play of a track are one request each,
    carrying the limit given or else the default of the operation (5 for
    the search, 20 for the playlists). *)
Theorem fresh_token_requests
        (env : option string) (json : JSON) (w : World) (m : Machine)
        (query trackId playlistId : string) (limit : option Z)
        (shuffle : option bool) :
  clock w (ticks m) < tokenExpirationTime (state m) - 60000 ->
  issued w (searchTracks env json query limit) m
  = [SearchTracks query (match limit with Some l => l | None => 5 end)] /\
  issued w (getUserPlaylists env json limit) m
  = [GetUserPlaylists (match limit with Some l => l | None => 20 end)] /\
  issued w (playTrack env trackId) m = [Play (Uris [trackUri trackId])] /\
  state (snd (run w (searchTracks env json query limit) m)) = state m /\
  state (snd (run w (getUserPlaylists env json limit) m)) = state m /\
  state (snd (run w (playTrack env trackId) m)) = state m /\
  state (snd (run w (getPlaylistTracks env json playlistId limit) m))
  = state m /\
  state (snd (run w (playPlaylist env playlistId shuffle) m)) = state m.
Proof.
  intros F.
  pose proof (ensureAccessToken_fresh env w m F) as E.
  assert (I : issued w (ensureAccessToken env) m = []).
  { apply issued_of_trace. rewrite E. simpl. now rewrite app_nil_r. }
  destruct (facade_state env json w m trackId playlistId query limit shuffle)
    as [A [B [C [D G]]]].
  rewrite A, B, C, D, G, E. cbn [snd state].
  repeat split.
  - rewrite (issued_after_check env w m (searchTracks env json query limit)
               [SearchTracks query (defaultTo 5 limit)]).
    + rewrite I. now destruct limit.
    + rewrite searchTracks_run, E. reflexivity.
  - rewrite (issued_after_check env w m (getUserPlaylists env json limit)
               [GetUserPlaylists (defaultTo 20 limit)]).
    + rewrite I. now destruct limit.
    + rewrite getUserPlaylists_run, E. reflexivity.
  - rewrite (issued_after_check env w m (playTrack env trackId)
               [Play (Uris [trackUri trackId])]).
    + now rewrite I.
    + rewrite playTrack_run, E. reflexivity.
Qed.

(** An instance of X22: a listing without limit. *)
Lemma fresh_token_requests_witness :
  issued Sample.calm (getUserPlaylists (Some "AQDr") JsonText.json None)
         (Sample.holding 5000000)
  = [GetUserPlaylists 20].
Proof.
  destruct (fresh_token_requests
              (Some "AQDr") JsonText.json Sample.calm
              (Sample.holding 5000000) "queen" "xyz" "nosuch" None None)
    as [_ [L _]].
  - simpl. lia.
  - exact L.
Defined.

(** X23. The same holds of the remaining operations: with a fresh token
    [getDevices] and [getCurrentlyPlaying] make exactly one call each and
    [debugSpotifyConfig] exactly two, the user lookup and the device
    listing, and none of them changes the token state. *)
Theorem fresh_token_calls
        (clientId clientSecret redirectUri env : option string)
        (stringify_devices : list DeviceSummary -> string)
        (stringify_playing : PlayingSummary -> string)
        (v : Service) (m : Process) :
  reading v (pticks m) < tokenExpirationTime (pstate m) - 60000 ->
  let after (p : Proc (list TextContent)) := snd (exec v p m) in
  calls (after (getDevices env stringify_devices))
  = (calls m ++ [GetMyDevices])%list /\
  calls (after (getCurrentlyPlaying env stringify_playing))
  = (calls m ++ [GetMyCurrentPlayingTrack])%list /\
  calls (after (debugSpotifyConfig clientId clientSecret redirectUri env))
  = (calls m ++ [GetMe; GetMyDevices])%list /\
  pstate (after (getDevices env stringify_devices)) = pstate m /\
  pstate (after (getCurrentlyPlaying env stringify_playing)) = pstate m /\
  pstate (after (debugSpotifyConfig clientId clientSecret redirectUri env))
  = pstate m.
Proof.
  intros F after. subst after. cbv beta.
  assert (E : exec v (lift (ensureAccessToken env)) m
              = (Returned tt,
                 mkProcess (pstate m) (S (pticks m)) (calls m))).
  { rewrite exec_check.
    rewrite (ensureAccessToken_fresh env (facadeWorld v (calls m))
                                     (facadeMachine m) F).
    assert (I : issued (facadeWorld v (calls m)) (ensureAccessToken env)
                       (facadeMachine m) = []).
    { apply issued_of_trace.
      rewrite (ensureAccessToken_fresh env (facadeWorld v (calls m))
                                       (facadeMachine m) F).
      reflexivity. }
    rewrite I. simpl. now rewrite app_nil_r. }
  rewrite getDevices_exec, getCurrentlyPlaying_exec,
    debugSpotifyConfig_exec, E.
  repeat split.
Qed.

(** An instance of X23. *)
Lemma fresh_token_calls_witness :
  calls (snd (exec (Desk.service Sample.hour (inl Desk.forbidden)
                                 (inl Desk.forbidden))
                   (getDevices (Some "AQDr") (fun _ => "[]"))
                   (mkProcess (mkTokenState (Some "BQDa") 5000000) 0 [])))
  = [GetMyDevices].
Proof.
  destruct (@fresh_token_calls
              None None None (Some "AQDr") (fun _ => "[]") (fun _ => "{}")
              (Desk.service Sample.hour (inl Desk.forbidden)
                            (inl Desk.forbidden))
              (mkProcess (mkTokenState (Some "BQDa") 5000000) 0 []))
    as [D _].
  - simpl. lia.
  - exact D.
Defined.
